(** * natcmp: natural-order string comparison (src/natcmp.h)

    A shallow embedding of the two functions of [natcmp.h],
    [natcmp_nondigit_cmp_ascii] and [natcmp], followed by the properties
    of the comparison they implement.

    Conventions of the embedding.
    - An [unsigned char] is a [Z]; a byte of a string lies in 1..255.
    - A [const unsigned char *] into a NUL-terminated buffer is the list
      of the bytes from the pointed position up to the terminator, which
      is left implicit: reading through the pointer ([deref]) gives the
      head of the list, or 0 at the end.  [p + 1] is the tail of the
      list, and the difference [q - p] of two pointers into one buffer is
      the difference of the lengths of the two suffixes.
    - [int] results are [Z]; [size_t] lengths are [nat] (a length of a
      run inside one buffer always fits the type).
    - The [<ctype.h>] and [<string.h>] functions used by the header are
      those of the "C" locale.
    - The [while] loop of [natcmp] takes a bound on the number of times
      its body may run. *)

From Stdlib Require Import String Ascii ZArith List Bool Lia Arith.
Import ListNotations.

Local Open Scope Z_scope.

(** ** Bytes, cursors and the C library *)

Definition uchar := Z.

Definition cursor := list uchar.

(** [*p] *)
Definition deref (p : cursor) : uchar :=
  match p with
  | [] => 0
  | c :: _ => c
  end.

(** [p + 1], [p[1]] is [deref (next p)] *)
Definition next (p : cursor) : cursor :=
  match p with
  | [] => []
  | _ :: p' => p'
  end.

(** [(size_t)(q - p)] for [q] at or after [p] in the same buffer. *)
Definition ptrdiff (q p : cursor) : nat := (length p - length q)%nat.

(** A non-zero test of a byte, as in [if ( *a)]. *)
Definition nonzero (c : uchar) : bool := negb (c =? 0).

(** [isdigit] of [<ctype.h>]: '0' (48) .. '9' (57). *)
Definition isdigit (c : uchar) : bool := (48 <=? c) && (c <=? 57).

(** [tolower] of [<ctype.h>]: 'A' (65) .. 'Z' (90) are moved to
    'a' .. 'z'. *)
Definition tolower (c : uchar) : uchar :=
  if (65 <=? c) && (c <=? 90) then c + 32 else c.

(** [strncasecmp] of [<strings.h>]: at most [n] bytes are compared after
    [tolower]; the scan stops at the first difference or at a NUL. *)
Fixpoint strncasecmp (s1 s2 : cursor) (n : nat) : Z :=
  match n with
  | O => 0
  | S n' =>
      let c1 := tolower (deref s1) in
      let c2 := tolower (deref s2) in
      if c1 =? c2
      then if deref s1 =? 0 then 0 else strncasecmp (next s1) (next s2) n'
      else c1 - c2
  end.

(** [strncmp] of [<string.h>]. *)
Fixpoint strncmp (s1 s2 : cursor) (n : nat) : Z :=
  match n with
  | O => 0
  | S n' =>
      let c1 := deref s1 in
      let c2 := deref s2 in
      if c1 =? c2
      then if c1 =? 0 then 0 else strncmp (next s1) (next s2) n'
      else c1 - c2
  end.

(** ** The strategy interface: [natcmp_nondigit_cmp_func_t]

    A strategy returns an [int] and may write the two out-parameters.
    The caller initialises both to [NULL]; [None] is an out-parameter the
    strategy left untouched. *)

Record cmp_result := mk_result {
  res : Z;
  end_a : option cursor;
  end_b : option cursor
}.

Definition natcmp_nondigit_cmp_func_t := cursor -> cursor -> cmp_result.

(** ** [natcmp_nondigit_cmp_ascii] *)

(** The scanning loop [while ( *pa && !isdigit( *pa)) pa++;] *)
Fixpoint scan_nondigit (pa : cursor) : cursor :=
  match pa with
  | [] => pa
  | c :: pa' =>
      if nonzero c && negb (isdigit c) then scan_nondigit pa' else pa
  end.

Definition natcmp_nondigit_cmp_ascii : natcmp_nondigit_cmp_func_t :=
  fun a b =>
    let pa := scan_nondigit a in
    let pb := scan_nondigit b in
    let len_a := ptrdiff pa a in
    let len_b := ptrdiff pb b in
    let cmp := strncasecmp a b (if (len_a <? len_b)%nat then len_a else len_b) in
    if negb (cmp =? 0) then
      mk_result (if cmp <? 0 then -1 else 1) None None
    else if negb (len_a =? len_b)%nat then
      mk_result (if (len_a <? len_b)%nat then -1 else 1) None None
    else
      mk_result 0 (Some pa) (Some pb).

(** ** [natcmp] *)

(** The anonymous struct describing a number part. *)
Record numpart := mk_numpart {
  head : cursor;
  digits : cursor;
  len : nat;
  tail : cursor
}.

(** The macro [natcmp_skip_leading_zeros]: the cursor moves on while it
    reads the byte 48 (the digit zero) and the byte after it is a
    non-NUL digit. *)
Fixpoint natcmp_skip_leading_zeros (s : cursor) : cursor :=
  match s with
  | [] => s
  | c :: s' =>
      if (c =? 48) && nonzero (deref s') && isdigit (deref s')
      then natcmp_skip_leading_zeros s'
      else s
  end.

(** The macro [natcmp_skip_digits]: the cursor moves on while it reads a
    non-NUL digit. *)
Fixpoint natcmp_skip_digits (s : cursor) : cursor :=
  match s with
  | [] => s
  | c :: s' =>
      if nonzero c && isdigit c then natcmp_skip_digits s' else s
  end.

(** What one run of the loop body does. *)
Inductive step :=
| Return (r : Z)              (* a [return] inside the loop *)
| Break (a b : cursor)        (* the [break] *)
| Continue (a b : cursor)     (* the end of the body is reached *)
| Fault.                      (* a [NULL] end cursor is read *)

(** Lines 162-219: both number parts are located and compared. *)
Definition natcmp_number (a b : cursor) : step :=
  let an_digits := natcmp_skip_leading_zeros a in
  let bn_digits := natcmp_skip_leading_zeros b in
  let an_tail := natcmp_skip_digits an_digits in
  let bn_tail := natcmp_skip_digits bn_digits in
  let an := mk_numpart a an_digits (ptrdiff an_tail an_digits) an_tail in
  let bn := mk_numpart b bn_digits (ptrdiff bn_tail bn_digits) bn_tail in
  if negb (len an =? len bn)%nat then
    Return (if (len an <? len bn)%nat then -1 else 1)
  else
    let cmp := strncmp (digits an) (digits bn) (len an) in
    if negb (cmp =? 0) then
      Return (if cmp <? 0 then -1 else 1)
    else
      let an_len := ptrdiff (tail an) (head an) in
      let bn_len := ptrdiff (tail bn) (head bn) in
      if negb (an_len =? bn_len)%nat then
        Return (if (an_len <? bn_len)%nat then -1 else 1)
      else
        Continue (tail an) (tail bn).

(** Lines 156-219: the classification test, then the number parts. *)
Definition natcmp_classify (isdigit_a isdigit_b : bool) (a b : cursor) : step :=
  if negb (Bool.eqb isdigit_a isdigit_b) then
    Return (if isdigit_a then -1 else 1)
  else
    natcmp_number a b.

(** The body of the [while] loop. *)
Definition natcmp_body (compare : natcmp_nondigit_cmp_func_t)
    (a b : cursor) : step :=
  let isdigit_a := isdigit (deref a) in
  let isdigit_b := isdigit (deref b) in
  if negb isdigit_a && negb isdigit_b then
    let r := compare a b in
    if negb (res r =? 0) then
      Return (if res r <? 0 then -1 else 1)
    else
      match end_a r, end_b r with
      | Some a', Some b' =>
          if negb (nonzero (deref a')) || negb (nonzero (deref b')) then
            Break a' b'
          else
            natcmp_classify (isdigit (deref a')) (isdigit (deref b')) a' b'
      | _, _ => Fault
      end
  else
    natcmp_classify isdigit_a isdigit_b a b.

(** Lines 224-232: the code after the loop. *)
Definition natcmp_tail (a b : cursor) : Z :=
  if nonzero (deref b) then -1
  else if nonzero (deref a) then 1
  else 0.

(** The result of running [natcmp]. *)
Inductive outcome :=
| Ret (r : Z)      (* the function returned [r] *)
| Undefined        (* a [NULL] end cursor was read *)
| OutOfFuel.       (* the bound on the loop was reached *)

Fixpoint natcmp_loop (fuel : nat) (compare : natcmp_nondigit_cmp_func_t)
    (a b : cursor) : outcome :=
  if nonzero (deref a) && nonzero (deref b) then
    match fuel with
    | O => OutOfFuel
    | S fuel' =>
        match natcmp_body compare a b with
        | Return r => Ret r
        | Break a' b' => Ret (natcmp_tail a' b')
        | Continue a' b' => natcmp_loop fuel' compare a' b'
        | Fault => Undefined
        end
    end
  else Ret (natcmp_tail a b).

(** The number of times the loop body runs, under the same bound. *)
Fixpoint natcmp_iterations (fuel : nat)
    (compare : natcmp_nondigit_cmp_func_t) (a b : cursor) : nat :=
  if nonzero (deref a) && nonzero (deref b) then
    match fuel with
    | O => O
    | S fuel' =>
        S (match natcmp_body compare a b with
           | Continue a' b' => natcmp_iterations fuel' compare a' b'
           | _ => O
           end)
    end
  else O.

(** Lines 127-130: a [NULL] function pointer ([None]) is replaced by the
    default strategy. *)
Definition default_strategy
    (compare : option natcmp_nondigit_cmp_func_t) :
    natcmp_nondigit_cmp_func_t :=
  match compare with
  | None => natcmp_nondigit_cmp_ascii
  | Some f => f
  end.

(** [natcmp(a, b, compare)]. *)
Definition natcmp (fuel : nat) (a b : cursor)
    (compare : option natcmp_nondigit_cmp_func_t) : outcome :=
  let compare := default_strategy compare in
  natcmp_loop fuel compare a b.

(** ** Strings of the test suite *)

Definition bytes (s : string) : cursor :=
  map (fun c => Z.of_N (N_of_ascii c)) (list_ascii_of_string s).

(** The contents of a NUL-terminated byte string: no byte is NUL and each
    fits 8 bits. *)
Definition is_byte (c : uchar) : bool := (0 <? c) && (c <? 256).

Definition cstring (s : cursor) : Prop := forallb is_byte s = true.

(** The assertions of test/test_natcmp.c: every pair of [cases] compares
    with the sign [sign] under the strategy [compare]. *)
Definition expect (compare : option natcmp_nondigit_cmp_func_t)
    (sign : Z) (cases : list (string * string)) : bool :=
  forallb
    (fun xy =>
       match natcmp 32 (bytes (fst xy)) (bytes (snd xy)) compare with
       | Ret r => Z.sgn r =? sign
       | _ => false
       end)
    cases.

Definition cases_lt : list (string * string) :=
  [("file02.txt", "file002.txt"); ("1abc", "abc"); ("abc", "abcd");
   ("file123.txt", "file456.txt"); ("abc", "abc123");
   ("abc123", "abc123xyz"); ("", "a"); ("file", "file1");
   ("file1", "file12")]%string.

Definition cases_gt : list (string * string) :=
  [("file456.txt", "file123.txt"); ("abc123", "abc");
   ("abc123xyz", "abc123"); ("a", ""); ("file1", "file");
   ("file12", "file1")]%string.

(** [strcmp_cb] of test/test_natcmp.c, the case-sensitive strategy of the
    test suite. *)
Fixpoint strcmp_cb_scan (p q : cursor) : cursor * cursor :=
  match p, q with
  | c :: p', d :: q' =>
      if nonzero c && nonzero d && negb (isdigit c) && negb (isdigit d)
         && (c =? d)
      then strcmp_cb_scan p' q'
      else (p, q)
  | _, _ => (p, q)
  end.

Definition strcmp_cb : natcmp_nondigit_cmp_func_t :=
  fun a b =>
    let (p, q) := strcmp_cb_scan a b in
    let r :=
      if isdigit (deref p) || isdigit (deref q) then 0
      else if deref p =? deref q then 0
      else if deref p <? deref q then -1 else 1 in
    mk_result r (Some p) (Some q).

(** ** Runs of bytes

    The list-level vocabulary of the specification: the maximal run of
    bytes of one class at the front of a string, what follows it, and the
    significant digits of a digit run. *)

Section Runs.
Context {A : Type} (p : A -> bool).

Fixpoint take_while (s : list A) : list A :=
  match s with
  | [] => []
  | c :: s' => if p c then c :: take_while s' else []
  end.

Fixpoint drop_while (s : list A) : list A :=
  match s with
  | [] => []
  | c :: s' => if p c then drop_while s' else s
  end.
End Runs.

(** A byte of a text (non-digit) run: neither the terminator nor a digit. *)
Definition is_text (c : uchar) : bool := nonzero c && negb (isdigit c).

(** The digit run at the front of a string and what follows it. *)
Definition digit_run (s : cursor) : list uchar := take_while isdigit s.
Definition digit_rest (s : cursor) : cursor := drop_while isdigit s.

(** The text run at the front of a string and what follows it. *)
Definition text_run (s : cursor) : list uchar := take_while is_text s.
Definition text_rest (s : cursor) : cursor := drop_while is_text s.

(** The significant digits of a digit run: leading zeros are removed, but
    the last digit of the run always stays. *)
Fixpoint significant (r : list uchar) : list uchar :=
  match r with
  | [] => []
  | c :: r' =>
      match r' with
      | [] => r
      | _ :: _ => if c =? 48 then significant r' else r
      end
  end.

(** The first position at which two byte sequences differ, if any, with
    the two bytes found there. *)
Fixpoint first_diff (x y : list uchar) : option (uchar * uchar) :=
  match x, y with
  | c :: x', d :: y' => if c =? d then first_diff x' y' else Some (c, d)
  | _, _ => None
  end.

(** The result [natcmp] makes of an [int] or of two lengths. *)
Definition sign_of (c : Z) : Z := if c <? 0 then -1 else 1.
Definition by_length (n m : nat) : Z := if (n <? m)%nat then -1 else 1.

(** What the comparison of two number parts computes, in terms of the
    digit runs at the two cursors. *)
Definition number_cmp (ra rb : list uchar) : option Z :=
  let sa := significant ra in
  let sb := significant rb in
  if negb (length sa =? length sb)%nat then
    Some (by_length (length sa) (length sb))
  else
    match first_diff sa sb with
    | Some (c, d) => Some (sign_of (c - d))
    | None =>
        if negb (length ra =? length rb)%nat
        then Some (by_length (length ra) (length rb))
        else None
    end.

(** The common prefix of two runs: both cut to the shorter length. *)
Definition common (x y : list uchar) : list uchar :=
  firstn (Nat.min (length x) (length y)) x.

(** What the default strategy computes, in terms of the text runs at the
    two cursors: [None] stands for "equal in content and in length". *)
Definition text_cmp (ra rb : list uchar) : option Z :=
  match first_diff (map tolower ra) (map tolower rb) with
  | Some (c, d) => Some (sign_of (c - d))
  | None =>
      if negb (length ra =? length rb)%nat
      then Some (by_length (length ra) (length rb))
      else None
  end.

(** ** The order on strings that [natcmp] decides

    A string is cut into its maximal runs of digits and of other bytes
    (its tokens).  Tokens are ordered as the loop body orders them, and
    strings are ordered as the sequences of their tokens. *)

(** A token: [true] tags a digit run, [false] a text run. *)
Definition token := (bool * list uchar)%type.

Fixpoint tokens (s : list uchar) : list token :=
  match s with
  | [] => []
  | c :: s' =>
      match tokens s' with
      | (d, r) :: ts =>
          if Bool.eqb d (isdigit c)
          then (d, c :: r) :: ts
          else (isdigit c, [c]) :: (d, r) :: ts
      | [] => [(isdigit c, [c])]
      end
  end.

(** Lexicographic combination of two comparisons. *)
Definition lex (c1 c2 : comparison) : comparison :=
  match c1 with
  | Eq => c2
  | _ => c1
  end.

(** Lexicographic comparison of two sequences; a proper prefix comes
    first. *)
Fixpoint list_cmp {A : Type} (cmp : A -> A -> comparison)
    (x y : list A) : comparison :=
  match x, y with
  | [], [] => Eq
  | [], _ :: _ => Lt
  | _ :: _, [] => Gt
  | a :: x', b :: y' => lex (cmp a b) (list_cmp cmp x' y')
  end.

(** Digit runs: by number of significant digits, then by the significant
    digits, then by the length of the whole run. *)
Definition digit_order (ra rb : list uchar) : comparison :=
  lex (Nat.compare (length (significant ra)) (length (significant rb)))
      (lex (list_cmp Z.compare (significant ra) (significant rb))
           (Nat.compare (length ra) (length rb))).

(** Text runs: by their bytes after [tolower]. *)
Definition text_order (ra rb : list uchar) : comparison :=
  list_cmp Z.compare (map tolower ra) (map tolower rb).

(** A digit run comes before a text run. *)
Definition token_order (t1 t2 : token) : comparison :=
  match fst t1, fst t2 with
  | true, true => digit_order (snd t1) (snd t2)
  | false, false => text_order (snd t1) (snd t2)
  | true, false => Lt
  | false, true => Gt
  end.

Definition natural_order (a b : list uchar) : comparison :=
  list_cmp token_order (tokens a) (tokens b).

(** The [int] that stands for a comparison. *)
Definition int_of (c : comparison) : Z :=
  match c with
  | Lt => -1
  | Eq => 0
  | Gt => 1
  end.

(** The laws of a comparison that decides a total preorder. *)
Record preorder_cmp {A : Type} (cmp : A -> A -> comparison) : Prop := {
  cmp_opp : forall x y, cmp y x = CompOpp (cmp x y);
  cmp_eq_l : forall x y z, cmp x y = Eq -> cmp x z = cmp y z;
  cmp_lt_trans : forall x y z, cmp x y = Lt -> cmp y z = Lt -> cmp x z = Lt
}.

(** Every byte of a token is of the token's class. *)
Definition token_ok (t : token) : bool :=
  forallb (fun c => Bool.eqb (isdigit c) (fst t)) (snd t).

(** Two tokens with the same class and the same bytes after [tolower]. *)
Definition token_eqv (t1 t2 : token) : Prop :=
  fst t1 = fst t2 /\ map tolower (snd t1) = map tolower (snd t2).

(** ** Strategies *)

(** The default strategy, as [natcmp] sees it when [compare] is [NULL]. *)
Definition ascii : natcmp_nondigit_cmp_func_t := natcmp_nondigit_cmp_ascii.

(** A strategy makes progress when, called as [natcmp] calls it (both
    cursors on a non-NUL, non-digit byte), a zero result comes with both
    end cursors written and with less left to read in total. *)
Definition progressing (f : natcmp_nondigit_cmp_func_t) : Prop :=
  forall a b,
    is_text (deref a) = true -> is_text (deref b) = true ->
    res (f a b) = 0 ->
    exists a' b',
      end_a (f a b) = Some a' /\ end_b (f a b) = Some b' /\
      (length a' + length b' < length a + length b)%nat.

(** Two strategies that differ only in the magnitude of what they
    return. *)
Definition same_sign (f g : natcmp_nondigit_cmp_func_t) : Prop :=
  forall a b,
    Z.sgn (res (f a b)) = Z.sgn (res (g a b)) /\
    end_a (f a b) = end_a (g a b) /\ end_b (f a b) = end_b (g a b).

(** A strategy that reports equality without moving either cursor. *)
Definition stuck_cb : natcmp_nondigit_cmp_func_t :=
  fun a b => mk_result 0 (Some a) (Some b).

(** A strategy as [natcmp_nondigit_cmp_ascii], with results of larger
    magnitude. *)
Definition scaled_cb : natcmp_nondigit_cmp_func_t :=
  fun a b =>
    let r := natcmp_nondigit_cmp_ascii a b in
    mk_result (100 * res r) (end_a r) (end_b r).

(** A cursor [q] at or after [p] in the same string. *)
Definition advanced (p q : cursor) : Prop := exists r, p = r ++ q.

(** A cursor [q] strictly after [p] in the same string. *)
Definition strictly_advanced (p q : cursor) : Prop :=
  exists r, r <> [] /\ p = r ++ q.

(** What a run of the loop body can be when the strategy makes progress:
    a [return] of -1 or 1, a [break], or a new pair of cursors with less
    left to read. *)
Definition step_ok (a b : cursor) (s : step) : Prop :=
  match s with
  | Return r => r = -1 \/ r = 1
  | Break _ _ => True
  | Continue a' b' => (length a' + length b' < length a + length b)%nat
  | Fault => False
  end.

(** Two bytes that are equal after ASCII case folding: the same byte, or
    an upper-case letter and its lower-case form. *)
Definition is_upper (c : uchar) : bool := (65 <=? c) && (c <=? 90).

Definition same_folded (c d : uchar) : Prop :=
  c = d \/ (is_upper c = true /\ d = c + 32)
        \/ (is_upper d = true /\ c = d + 32).

(** The two ways a run of the loop body started with the cursors [a],
    [b] comes to the number part (lines 162-219), and the cursors [a'],
    [b'] it has there: without a strategy call, with the cursors it
    started with (lines 133-135); or after a strategy call on two
    non-digit bytes that returned 0 and wrote the end cursors [a'], [b']
    (lines 135-146). *)
Definition reaches_number_part (f : natcmp_nondigit_cmp_func_t)
    (a b a' b' : cursor) : Prop :=
  (a' = a /\ b' = b) \/
  (nonzero (deref a) = true /\ nonzero (deref b) = true /\
   isdigit (deref a) = false /\ isdigit (deref b) = false /\
   res (f a b) = 0 /\
   end_a (f a b) = Some a' /\ end_b (f a b) = Some b').

(** The pairs of cursors the loop test of [natcmp] is made with when
    [natcmp] is called with [a] and [b]: the two arguments, and the
    cursors every completed run of the body leaves. *)
Inductive loop_reaches (f : natcmp_nondigit_cmp_func_t) (a b : cursor) :
    cursor -> cursor -> Prop :=
| reaches_start : loop_reaches f a b a b
| reaches_step (p q p' q' : cursor) :
    loop_reaches f a b p q ->
    nonzero (deref p) && nonzero (deref q) = true ->
    natcmp_body f p q = Continue p' q' ->
    loop_reaches f a b p' q'.

(** The strategy makes progress at the cursors [p], [q]: if they rest on
    non-NUL, non-digit bytes and the strategy returns 0 there, it has
    written both end cursors and left less to read. *)
Definition progresses_at (f : natcmp_nondigit_cmp_func_t)
    (p q : cursor) : Prop :=
  is_text (deref p) = true -> is_text (deref q) = true ->
  res (f p q) = 0 ->
  exists p' q',
    end_a (f p q) = Some p' /\ end_b (f p q) = Some q' /\
    (length p' + length q' < length p + length q)%nat.

(** The strategy makes progress on every call [natcmp] makes to it when
    comparing [a] and [b]. *)
Definition progressing_on (f : natcmp_nondigit_cmp_func_t)
    (a b : cursor) : Prop :=
  forall p q, loop_reaches f a b p q -> progresses_at f p q.

(** ** Further vocabulary *)

(** A strategy that writes both end cursors whenever it returns 0. *)
Definition writes_ends (f : natcmp_nondigit_cmp_func_t) : Prop :=
  forall a b,
    res (f a b) = 0 -> end_a (f a b) <> None /\ end_b (f a b) <> None.

(** Adjacent tokens are of different classes and no token is empty. *)
Fixpoint alternating (ts : list token) : bool :=
  match ts with
  | [] => true
  | t :: ts' =>
      negb (match snd t with [] => true | _ => false end) &&
      match ts' with
      | [] => true
      | t' :: _ => negb (Bool.eqb (fst t) (fst t'))
      end && alternating ts'
  end.

(** The number a run of decimal digits denotes. *)
Definition digit_value (r : list uchar) : Z :=
  fold_left (fun v c => 10 * v + (c - 48)) r 0.

(** ** The order [natcmp] decides with [strcmp_cb]

    As [natural_order], with text runs compared byte by byte, without
    case folding. *)

Definition text_order_cs (ra rb : list uchar) : comparison :=
  list_cmp Z.compare ra rb.

Definition token_order_cs (t1 t2 : token) : comparison :=
  match fst t1, fst t2 with
  | true, true => digit_order (snd t1) (snd t2)
  | false, false => text_order_cs (snd t1) (snd t2)
  | true, false => Lt
  | false, true => Gt
  end.

Definition natural_order_cs (a b : list uchar) : comparison :=
  list_cmp token_order_cs (tokens a) (tokens b).

(** The test the scanning loop of [strcmp_cb] makes on the two current
    bytes. *)
Definition strcmp_cb_goes_on (p q : cursor) : bool :=
  nonzero (deref p) && nonzero (deref q)
  && negb (isdigit (deref p)) && negb (isdigit (deref q))
  && (deref p =? deref q).

(** A string without upper-case ASCII letters. *)
Definition no_upper (s : list uchar) : bool :=
  forallb (fun c => negb (is_upper c)) s.

(** Where a cursor into a NUL-terminated string can rest: on the
    terminator, on a digit, or on another byte. *)
Inductive cursor_view (p : cursor) : Prop :=
| at_end : p = [] -> cursor_view p
| at_digit (c : uchar) (p' : cursor) :
    p = c :: p' -> isdigit c = true -> nonzero c = true -> cursor_view p
| at_text (c : uchar) (p' : cursor) :
    p = c :: p' -> isdigit c = false -> nonzero c = true -> 0 < c ->
    cursor_view p.

(** * Properties *)

Example natcmp_file2_file10 :
  natcmp 20 (bytes "file2.txt") (bytes "file10.txt") None = Ret (-1).
Proof. reflexivity. Qed.

Example natcmp_abc_ABC_custom :
  natcmp 20 (bytes "abc") (bytes "ABC") (Some strcmp_cb) = Ret 1.
Proof. reflexivity. Qed.

(** The model passes the assertions of the test suite, with the custom
    strategy, with the default strategy and with a [NULL] strategy. *)
Example test_suite_custom :
  expect (Some strcmp_cb) 0 [("abc", "abc"); ("", "")]%string = true /\
  expect (Some strcmp_cb) (-1)
    ([("abc", "abd"); ("2", "10"); ("file2.txt", "file10.txt")]%string
     ++ cases_lt) = true /\
  expect (Some strcmp_cb) 1
    ([("abd", "abc"); ("10", "2"); ("file10.txt", "file2.txt")]%string
     ++ cases_gt) = true /\
  expect (Some strcmp_cb) 0 [("abc", "ABC")]%string = false.
Proof. repeat split; vm_compute; reflexivity. Qed.

Example test_suite_builtin :
  expect (Some natcmp_nondigit_cmp_ascii) 0
    [("abc", "ABC"); ("ABC", "abc"); ("file2.TXT", "FILE2.txt");
     ("a10", "A10"); ("", "")]%string = true /\
  expect (Some natcmp_nondigit_cmp_ascii) (-1)
    ([("abc", "ABD"); ("File2.txt", "file10.txt"); ("a10", "B10")]%string
     ++ cases_lt) = true /\
  expect (Some natcmp_nondigit_cmp_ascii) 1
    ([("ABD", "abc"); ("file10.TXT", "File2.txt"); ("C10", "b10")]%string
     ++ cases_gt) = true.
Proof. repeat split; vm_compute; reflexivity. Qed.

Example test_suite_null :
  expect None 0 [("abc", "ABC"); ("ABC", "abc")]%string = true /\
  expect None (-1)
    [("abc", "ABD"); ("file2.txt", "file10.txt");
     ("file02.txt", "file002.txt")]%string = true /\
  expect None 1
    [("ABD", "abc"); ("file10.txt", "file2.txt");
     ("file002.txt", "file02.txt")]%string = true.
Proof. repeat split; vm_compute; reflexivity. Qed.


Section RunFacts.
Context {A : Type} (p : A -> bool).

Lemma take_drop_while (s : list A) : take_while p s ++ drop_while p s = s.
Proof.
  induction s as [|c s IH]; simpl; [reflexivity|].
  destruct (p c); simpl; [now rewrite IH | reflexivity].
Qed.

Lemma take_while_all (s : list A) : forallb p (take_while p s) = true.
Proof.
  induction s as [|c s IH]; simpl; [reflexivity|].
  destruct (p c) eqn:E; simpl; [now rewrite E | reflexivity].
Qed.

Lemma drop_while_stops (s : list A) :
  match drop_while p s with
  | [] => True
  | c :: _ => p c = false
  end.
Proof.
  induction s as [|c s IH]; simpl; [exact I|].
  destruct (p c) eqn:E; simpl; [exact IH | exact E].
Qed.


Lemma length_drop_while (s : list A) :
  (length (drop_while p s) <= length s)%nat.
Proof.
  rewrite <- (take_drop_while s) at 2. rewrite length_app. lia.
Qed.

Lemma take_while_app (r s : list A) :
  forallb p r = true ->
  match s with [] => True | c :: _ => p c = false end ->
  take_while p (r ++ s) = r /\ drop_while p (r ++ s) = s.
Proof.
  intros Hr Hs. induction r as [|c r IH]; simpl in *.
  - destruct s as [|c s]; simpl; [now split|]. now rewrite Hs.
  - apply andb_prop in Hr. destruct Hr as [Hc Hr]. rewrite Hc.
    destruct (IH Hr) as [-> ->]. now split.
Qed.
End RunFacts.

(** ** Basic facts about the C library model *)

Lemma isdigit_nonzero (c : uchar) : isdigit c = true -> nonzero c = true.
Proof. unfold isdigit, nonzero. intros H. apply andb_prop in H. lia. Qed.

Lemma is_text_nondigit (c : uchar) : is_text c = true -> isdigit c = false.
Proof.
  unfold is_text. intros H. apply andb_prop in H.
  destruct H as [_ H]. now destruct (isdigit c).
Qed.

Lemma isdigit_deref (a : cursor) :
  isdigit (deref a) = true -> exists c a', a = c :: a' /\ isdigit c = true.
Proof.
  destruct a as [|c a']; simpl; [discriminate|]. intros H. now exists c, a'.
Qed.

Lemma nonzero_deref (a : cursor) :
  nonzero (deref a) = true -> exists c a', a = c :: a' /\ nonzero c = true.
Proof.
  destruct a as [|c a']; simpl; [discriminate|]. intros H. now exists c, a'.
Qed.

Lemma skip_digits_rest (s : cursor) : natcmp_skip_digits s = digit_rest s.
Proof.
  unfold digit_rest. induction s as [|c s IH]; simpl; [reflexivity|].
  destruct (isdigit c) eqn:E.
  - now rewrite (isdigit_nonzero _ E).
  - now rewrite andb_false_r.
Qed.

Lemma scan_nondigit_rest (s : cursor) : scan_nondigit s = text_rest s.
Proof.
  unfold text_rest, is_text. induction s as [|c s IH]; simpl; [reflexivity|].
  now destruct (nonzero c && negb (isdigit c)).
Qed.

Lemma significant_suffix (r : list uchar) :
  exists z, r = z ++ significant r /\ forallb (Z.eqb 48) z = true.
Proof.
  induction r as [|c r IH]; [now exists []|].
  destruct r as [|d r]; [now exists []|].
  change (significant (c :: d :: r))
    with (if c =? 48 then significant (d :: r) else c :: d :: r).
  destruct (c =? 48) eqn:E; [|now exists []].
  destruct IH as [z [Hz Hall]]. exists (c :: z). split.
  - now rewrite <- app_comm_cons, <- Hz.
  - simpl. rewrite Hall. apply Z.eqb_eq in E. subst c. reflexivity.
Qed.


Lemma significant_nonempty (r : list uchar) :
  r <> [] -> significant r <> [].
Proof.
  induction r as [|c r IH]; [congruence|]. intros _.
  destruct r as [|d r]; [discriminate|].
  change (significant (c :: d :: r))
    with (if c =? 48 then significant (d :: r) else c :: d :: r).
  destruct (c =? 48); [apply IH|]; discriminate.
Qed.

Lemma significant_digits (r : list uchar) :
  forallb isdigit r = true -> forallb isdigit (significant r) = true.
Proof.
  destruct (significant_suffix r) as [z [Hz _]]. intros H.
  rewrite Hz, forallb_app in H. apply andb_prop in H. tauto.
Qed.

(** The leading zeros skipped by the macro are those [significant]
    removes from the digit run. *)
Lemma skip_leading_zeros_significant (s : cursor) :
  natcmp_skip_leading_zeros s = significant (digit_run s) ++ digit_rest s.
Proof.
  unfold digit_run, digit_rest.
  induction s as [|c s IH]; [reflexivity|].
  destruct s as [|d s].
  - simpl. rewrite andb_false_r. now destruct (isdigit c).
  - change (natcmp_skip_leading_zeros (c :: d :: s))
      with (if (c =? 48) && nonzero d && isdigit d
            then natcmp_skip_leading_zeros (d :: s) else c :: d :: s).
    destruct (isdigit d) eqn:Ed.
    + rewrite (isdigit_nonzero _ Ed), !andb_true_r.
      destruct (c =? 48) eqn:Ec.
      * apply Z.eqb_eq in Ec. subst c. rewrite IH. simpl. rewrite Ed.
        reflexivity.
      * simpl. rewrite Ed.
        destruct (isdigit c) eqn:E; simpl; [|reflexivity].
        rewrite Ec. now rewrite <- !app_comm_cons, take_drop_while.
    + rewrite andb_false_r. simpl. rewrite Ed.
      destruct (isdigit c) eqn:E; reflexivity.
Qed.

Lemma first_diff_neq (x y : list uchar) (c d : uchar) :
  first_diff x y = Some (c, d) -> c <> d.
Proof.
  revert y. induction x as [|e x IH]; intros [|f y]; simpl; try discriminate.
  destruct (e =? f) eqn:E; [apply IH|].
  intros H. injection H as <- <-. now apply Z.eqb_neq.
Qed.

Lemma first_diff_none (x y : list uchar) :
  length x = length y -> first_diff x y = None -> x = y.
Proof.
  revert y. induction x as [|e x IH]; intros [|f y]; simpl; try discriminate.
  - reflexivity.
  - intros Hl. destruct (e =? f) eqn:E; [|discriminate].
    apply Z.eqb_eq in E. subst f. intros H. f_equal. apply IH; [lia|exact H].
Qed.

Lemma first_diff_refl (x : list uchar) : first_diff x x = None.
Proof. induction x as [|e x IH]; simpl; [|rewrite Z.eqb_refl]; auto. Qed.

(** [first_diff] finds the least index at which the sequences differ. *)
Lemma first_diff_index (x y : list uchar) (c d : uchar) :
  first_diff x y = Some (c, d) <->
  exists i, firstn i x = firstn i y /\
            nth_error x i = Some c /\ nth_error y i = Some d /\ c <> d.
Proof.
  revert y. induction x as [|e x IH]; intros y.
  - simpl. split; [discriminate|]. intros [i [_ [H _]]].
    destruct i; discriminate.
  - destruct y as [|f y].
    + simpl. split; [discriminate|]. intros [i [_ [_ [H _]]]].
      destruct i; discriminate.
    + simpl. destruct (e =? f) eqn:E.
      * apply Z.eqb_eq in E. subst f. rewrite IH. split.
        -- intros [i [H1 [H2 [H3 H4]]]]. exists (S i). simpl.
           rewrite H1. auto.
        -- intros [[|i] [H1 [H2 [H3 H4]]]]; simpl in *.
           ++ congruence.
           ++ exists i. injection H1 as H1. auto.
      * apply Z.eqb_neq in E. split.
        -- intros H. injection H as <- <-. exists 0%nat. simpl. auto.
        -- intros [[|i] [H1 [H2 [H3 H4]]]]; simpl in *.
           ++ congruence.
           ++ injection H1 as H1 _. contradiction.
Qed.

Lemma strncmp_first_diff (x y ra rb : list uchar) :
  length x = length y -> forallb nonzero x = true ->
  strncmp (x ++ ra) (y ++ rb) (length x) =
  match first_diff x y with
  | Some (c, d) => c - d
  | None => 0
  end.
Proof.
  revert y. induction x as [|e x IH]; intros [|f y]; simpl; try discriminate.
  - reflexivity.
  - intros Hl Hx. apply andb_prop in Hx. destruct Hx as [He Hx].
    destruct (e =? f) eqn:E; [|reflexivity].
    unfold nonzero in He. destruct (e =? 0); [discriminate|].
    apply IH; [lia|exact Hx].
Qed.

Lemma forallb_impl {A} (p q : A -> bool) (l : list A) :
  (forall x, p x = true -> q x = true) ->
  forallb p l = true -> forallb q l = true.
Proof.
  intros H. induction l as [|x l IH]; simpl; [reflexivity|].
  intros Hl. apply andb_prop in Hl. destruct Hl as [Hx Hl].
  now rewrite (H _ Hx), IH.
Qed.

Lemma ptrdiff_app (r s : cursor) : ptrdiff s (r ++ s) = length r.
Proof. unfold ptrdiff. rewrite length_app. lia. Qed.

Lemma ptrdiff_digit_rest (s : cursor) :
  ptrdiff (digit_rest s) s = length (digit_run s).
Proof.
  unfold digit_rest, digit_run. rewrite <- (take_drop_while isdigit s) at 2.
  apply ptrdiff_app.
Qed.

Lemma ptrdiff_text_rest (s : cursor) :
  ptrdiff (text_rest s) s = length (text_run s).
Proof.
  unfold text_rest, text_run. rewrite <- (take_drop_while is_text s) at 2.
  apply ptrdiff_app.
Qed.

Lemma digit_run_digits (s : cursor) : forallb isdigit (digit_run s) = true.
Proof. apply take_while_all. Qed.

Lemma skip_digits_significant (s : cursor) :
  natcmp_skip_digits (significant (digit_run s) ++ digit_rest s) =
  digit_rest s.
Proof.
  rewrite skip_digits_rest. unfold digit_rest at 1.
  apply take_while_app.
  - apply significant_digits, digit_run_digits.
  - apply drop_while_stops.
Qed.

Lemma natcmp_number_spec (a b : cursor) :
  natcmp_number a b =
  match number_cmp (digit_run a) (digit_run b) with
  | Some r => Return r
  | None => Continue (digit_rest a) (digit_rest b)
  end.
Proof.
  unfold natcmp_number, number_cmp. cbn [len digits head tail].
  rewrite !skip_leading_zeros_significant, !skip_digits_significant.
  rewrite !ptrdiff_app, !ptrdiff_digit_rest.
  destruct (length (significant (digit_run a)) =?
            length (significant (digit_run b)))%nat eqn:El; simpl;
    [|reflexivity].
  apply Nat.eqb_eq in El.
  rewrite strncmp_first_diff; [|exact El|].
  - destruct (first_diff _ _) as [[c d]|] eqn:Ed.
    + apply first_diff_neq in Ed.
      assert (H : (c - d =? 0) = false) by (apply Z.eqb_neq; lia).
      now rewrite H.
    + simpl. now destruct (length (digit_run a) =? length (digit_run b))%nat.
  - apply forallb_impl with (p := isdigit); [apply isdigit_nonzero|].
    apply significant_digits, digit_run_digits.
Qed.

(** ** The default strategy on text runs *)

Lemma first_diff_common (x y : list uchar) :
  first_diff (common x y) (common y x) = first_diff x y.
Proof.
  unfold common. revert y.
  induction x as [|e x IH]; intros [|f y]; simpl; try reflexivity.
  destruct (e =? f); [apply IH | reflexivity].
Qed.

Lemma common_length (x y : list uchar) :
  length (common x y) = length (common y x).
Proof. unfold common. rewrite !length_firstn. lia. Qed.

Lemma common_map (f : uchar -> uchar) (x y : list uchar) :
  common (map f x) (map f y) = map f (common x y).
Proof. unfold common. now rewrite !length_map, firstn_map. Qed.

Lemma strncasecmp_first_diff (x y ra rb : list uchar) :
  forallb nonzero x = true ->
  strncasecmp (x ++ ra) (y ++ rb) (Nat.min (length x) (length y)) =
  match first_diff (map tolower x) (map tolower y) with
  | Some (c, d) => c - d
  | None => 0
  end.
Proof.
  revert y. induction x as [|e x IH]; intros [|f y]; simpl; try reflexivity.
  intros Hx. apply andb_prop in Hx. destruct Hx as [He Hx].
  destruct (tolower e =? tolower f) eqn:E; [|reflexivity].
  unfold nonzero in He. destruct (e =? 0); [discriminate|].
  apply IH. exact Hx.
Qed.

Lemma min_as_if (n m : nat) :
  (if (n <? m)%nat then n else m) = Nat.min n m.
Proof. destruct (Nat.ltb_spec n m); lia. Qed.

Lemma text_run_nonzero (s : cursor) : forallb nonzero (text_run s) = true.
Proof.
  apply forallb_impl with (p := is_text).
  - unfold is_text. intros c H. apply andb_prop in H. tauto.
  - apply take_while_all.
Qed.

Lemma natcmp_nondigit_cmp_ascii_spec (a b : cursor) :
  natcmp_nondigit_cmp_ascii a b =
  match text_cmp (text_run a) (text_run b) with
  | Some r => mk_result r None None
  | None => mk_result 0 (Some (text_rest a)) (Some (text_rest b))
  end.
Proof.
  unfold natcmp_nondigit_cmp_ascii, text_cmp.
  rewrite !scan_nondigit_rest, !ptrdiff_text_rest, min_as_if.
  assert (Hcmp : strncasecmp a b
                   (Nat.min (length (text_run a)) (length (text_run b))) =
                 match first_diff (map tolower (text_run a))
                                  (map tolower (text_run b)) with
                 | Some (c, d) => c - d
                 | None => 0
                 end).
  { rewrite <- (take_drop_while is_text a) at 1.
    rewrite <- (take_drop_while is_text b) at 1.
    apply strncasecmp_first_diff, text_run_nonzero. }
  rewrite Hcmp. clear Hcmp.
  destruct (first_diff _ _) as [[c d]|] eqn:Ed.
  - apply first_diff_neq in Ed.
    assert (H : (c - d =? 0) = false) by (apply Z.eqb_neq; lia).
    now rewrite H.
  - simpl. now destruct (length (text_run a) =? length (text_run b))%nat.
Qed.

Lemma sign_of_sub (c d : Z) :
  c <> d -> sign_of (c - d) = if c <? d then -1 else 1.
Proof.
  intros H. unfold sign_of.
  destruct (Z.ltb_spec (c - d) 0), (Z.ltb_spec c d); lia.
Qed.

Lemma sign_of_cases (c : Z) : sign_of c = -1 \/ sign_of c = 1.
Proof. unfold sign_of. destruct (c <? 0); auto. Qed.

Lemma by_length_cases (n m : nat) : by_length n m = -1 \/ by_length n m = 1.
Proof. unfold by_length. destruct (n <? m)%nat; auto. Qed.

Lemma number_cmp_cases (ra rb : list uchar) (r : Z) :
  number_cmp ra rb = Some r -> r = -1 \/ r = 1.
Proof.
  unfold number_cmp.
  destruct (negb _); [intros H; injection H as <-; apply by_length_cases|].
  destruct (first_diff _ _) as [[c d]|];
    [intros H; injection H as <-; apply sign_of_cases|].
  destruct (negb _); [intros H; injection H as <-; apply by_length_cases|].
  discriminate.
Qed.

Lemma text_cmp_cases (ra rb : list uchar) (r : Z) :
  text_cmp ra rb = Some r -> r = -1 \/ r = 1.
Proof.
  unfold text_cmp.
  destruct (first_diff _ _) as [[c d]|];
    [intros H; injection H as <-; apply sign_of_cases|].
  destruct (negb _); [intros H; injection H as <-; apply by_length_cases|].
  discriminate.
Qed.

(** ** Comparisons that decide a total preorder *)

Section PreorderCmp.
Context {A : Type} (cmp : A -> A -> comparison).
Hypothesis laws : preorder_cmp cmp.

Lemma cmp_refl (x : A) : cmp x x = Eq.
Proof.
  pose proof (cmp_opp cmp laws x x) as H.
  destruct (cmp x x); simpl in H; congruence.
Qed.

Lemma cmp_eq_sym (x y : A) : cmp x y = Eq -> cmp y x = Eq.
Proof. intros H. now rewrite (cmp_opp cmp laws x y), H. Qed.

Lemma cmp_eq_r (x y z : A) : cmp y z = Eq -> cmp x y = cmp x z.
Proof.
  intros H. apply cmp_eq_sym in H.
  pose proof (cmp_eq_l cmp laws z y x H) as E.
  rewrite (cmp_opp cmp laws y x), (cmp_opp cmp laws z x).
  now rewrite E.
Qed.

Lemma cmp_le_trans (x y z : A) :
  cmp x y <> Gt -> cmp y z <> Gt -> cmp x z <> Gt.
Proof.
  intros Hxy Hyz.
  destruct (cmp x y) eqn:Exy; [| |congruence].
  - now rewrite (cmp_eq_l cmp laws x y z Exy).
  - destruct (cmp y z) eqn:Eyz; [| |congruence].
    + rewrite <- (cmp_eq_r x y z Eyz), Exy. discriminate.
    + rewrite (cmp_lt_trans cmp laws x y z Exy Eyz). discriminate.
Qed.

Lemma list_cmp_laws : preorder_cmp (list_cmp cmp).
Proof.
  split.
  - induction x as [|a x IH]; intros [|b y]; simpl; try reflexivity.
    rewrite (cmp_opp cmp laws a b), IH.
    now destruct (cmp a b).
  - induction x as [|a x IH]; intros [|b y] z; simpl; try discriminate.
    + reflexivity.
    + intros H. destruct (cmp a b) eqn:Eab; simpl in H; try discriminate.
      destruct z as [|c z]; simpl; [reflexivity|].
      now rewrite (cmp_eq_l cmp laws a b c Eab), (IH y z H).
  - induction x as [|a x IH]; intros [|b y] [|c z]; simpl;
      try discriminate; try reflexivity.
    intros Hxy Hyz.
    destruct (cmp a b) eqn:Eab; simpl in Hxy; try discriminate.
    + rewrite (cmp_eq_l cmp laws a b c Eab).
      destruct (cmp b c) eqn:Ebc; simpl in *; try discriminate.
      * now apply IH with y.
      * reflexivity.
    + destruct (cmp b c) eqn:Ebc; simpl in Hyz; try discriminate.
      * now rewrite <- (cmp_eq_r a b c Ebc), Eab.
      * now rewrite (cmp_lt_trans cmp laws a b c Eab Ebc).
Qed.

Lemma on_laws {B : Type} (f : B -> A) :
  preorder_cmp (fun x y => cmp (f x) (f y)).
Proof.
  split; intros.
  - apply (cmp_opp cmp laws).
  - now apply (cmp_eq_l cmp laws).
  - now apply (cmp_lt_trans cmp laws) with (f y).
Qed.

Lemma lex_laws (cmp2 : A -> A -> comparison) :
  preorder_cmp cmp2 -> preorder_cmp (fun x y => lex (cmp x y) (cmp2 x y)).
Proof.
  intros laws2. split.
  - intros x y. rewrite (cmp_opp cmp laws x y), (cmp_opp cmp2 laws2 x y).
    now destruct (cmp x y).
  - intros x y z H.
    destruct (cmp x y) eqn:Exy; simpl in H; try discriminate.
    now rewrite (cmp_eq_l cmp laws x y z Exy), (cmp_eq_l cmp2 laws2 x y z H).
  - intros x y z Hxy Hyz.
    destruct (cmp x y) eqn:Exy; simpl in Hxy; try discriminate.
    + rewrite (cmp_eq_l cmp laws x y z Exy).
      destruct (cmp y z) eqn:Eyz; simpl in *; try discriminate.
      * now apply (cmp_lt_trans cmp2 laws2) with y.
      * reflexivity.
    + destruct (cmp y z) eqn:Eyz; simpl in Hyz; try discriminate.
      * now rewrite <- (cmp_eq_r x y z Eyz), Exy.
      * now rewrite (cmp_lt_trans cmp laws x y z Exy Eyz).
Qed.
End PreorderCmp.

Lemma Z_compare_laws : preorder_cmp Z.compare.
Proof.
  split.
  - intros x y. apply Z.compare_antisym.
  - intros x y z H. apply Z.compare_eq in H. now subst.
  - intros x y z H1 H2. rewrite Z.compare_lt_iff in *. lia.
Qed.

Lemma nat_compare_laws : preorder_cmp Nat.compare.
Proof.
  split.
  - intros x y. apply Nat.compare_antisym.
  - intros x y z H. apply Nat.compare_eq in H. now subst.
  - intros x y z H1 H2. rewrite Nat.compare_lt_iff in *. lia.
Qed.

Lemma digit_order_laws : preorder_cmp digit_order.
Proof.
  unfold digit_order.
  apply (lex_laws (fun x y => Nat.compare (length (significant x))
                                          (length (significant y)))).
  - apply (on_laws Nat.compare nat_compare_laws
             (fun x => length (significant x))).
  - apply (lex_laws (fun x y => list_cmp Z.compare (significant x)
                                                   (significant y))).
    + apply (on_laws (list_cmp Z.compare) (list_cmp_laws _ Z_compare_laws)
               significant).
    + apply (on_laws Nat.compare nat_compare_laws (@length uchar)).
Qed.

Lemma text_order_laws : preorder_cmp text_order.
Proof.
  apply (on_laws (list_cmp Z.compare) (list_cmp_laws _ Z_compare_laws)
           (map tolower)).
Qed.

Lemma token_order_laws : preorder_cmp token_order.
Proof.
  pose proof digit_order_laws as D. pose proof text_order_laws as T.
  split.
  - intros [[|] r1] [[|] r2]; unfold token_order; simpl; try reflexivity.
    + apply (cmp_opp _ D).
    + apply (cmp_opp _ T).
  - intros [[|] r1] [[|] r2] [[|] r3]; unfold token_order; simpl;
      try discriminate; try reflexivity.
    + apply (cmp_eq_l _ D).
    + apply (cmp_eq_l _ T).
  - intros [[|] r1] [[|] r2] [[|] r3]; unfold token_order; simpl;
      try discriminate; try reflexivity.
    + apply (cmp_lt_trans _ D).
    + apply (cmp_lt_trans _ T).
Qed.

Lemma natural_order_laws : preorder_cmp natural_order.
Proof.
  apply (on_laws (list_cmp token_order) (list_cmp_laws _ token_order_laws)
           tokens).
Qed.

(** ** The loop body computes the order of the tokens *)

Lemma list_cmp_first_diff (x y : list uchar) :
  list_cmp Z.compare x y =
  match first_diff x y with
  | Some (c, d) => Z.compare c d
  | None => Nat.compare (length x) (length y)
  end.
Proof.
  revert y. induction x as [|a x IH]; intros [|b y]; simpl; try reflexivity.
  destruct (Z.eqb_spec a b) as [->|Hab].
  - rewrite Z.compare_refl. simpl. apply IH.
  - destruct (Z.compare_spec a b); simpl; congruence.
Qed.

Lemma length_cmp (n m : nat) :
  (if negb (n =? m)%nat then Some (by_length n m) else None) =
  match Nat.compare n m with
  | Eq => None
  | c => Some (int_of c)
  end.
Proof.
  unfold by_length.
  destruct (Nat.compare_spec n m), (Nat.eqb_spec n m), (Nat.ltb_spec n m);
    simpl; try reflexivity; lia.
Qed.

Lemma sign_of_compare (c d : Z) :
  c <> d -> sign_of (c - d) = int_of (Z.compare c d).
Proof.
  intros H. unfold sign_of.
  destruct (Z.compare_spec c d), (Z.ltb_spec (c - d) 0); simpl; lia.
Qed.

Lemma number_cmp_order (ra rb : list uchar) :
  number_cmp ra rb =
  match digit_order ra rb with
  | Eq => None
  | c => Some (int_of c)
  end.
Proof.
  unfold number_cmp, digit_order.
  rewrite list_cmp_first_diff.
  destruct (Nat.compare_spec (length (significant ra))
                             (length (significant rb))) as [E|E|E].
  - rewrite E, Nat.eqb_refl. simpl.
    destruct (first_diff _ _) as [[c d]|] eqn:Ed.
    + pose proof (first_diff_neq _ _ _ _ Ed) as N.
      rewrite (sign_of_compare _ _ N).
      destruct (Z.compare_spec c d); simpl; try reflexivity. contradiction.
    + apply length_cmp.
  - assert (H : (length (significant ra) =? length (significant rb))%nat
                = false) by (apply Nat.eqb_neq; lia).
    rewrite H. simpl. unfold by_length.
    destruct (Nat.ltb_spec (length (significant ra))
                           (length (significant rb))); [reflexivity|lia].
  - assert (H : (length (significant ra) =? length (significant rb))%nat
                = false) by (apply Nat.eqb_neq; lia).
    rewrite H. simpl. unfold by_length.
    destruct (Nat.ltb_spec (length (significant ra))
                           (length (significant rb))); [lia|reflexivity].
Qed.

Lemma text_cmp_order (ra rb : list uchar) :
  text_cmp ra rb =
  match text_order ra rb with
  | Eq => None
  | c => Some (int_of c)
  end.
Proof.
  unfold text_cmp, text_order. rewrite list_cmp_first_diff.
  destruct (first_diff _ _) as [[c d]|] eqn:Ed.
  - pose proof (first_diff_neq _ _ _ _ Ed) as N.
    rewrite (sign_of_compare _ _ N).
    destruct (Z.compare_spec c d); simpl; try reflexivity. contradiction.
  - rewrite !length_map. apply length_cmp.
Qed.

(** *** Strings and their tokens *)

Lemma is_byte_nonzero (c : uchar) : is_byte c = true -> nonzero c = true.
Proof. unfold is_byte, nonzero. intros H. apply andb_prop in H. lia. Qed.

Lemma cstring_cons (c : uchar) (s : cursor) :
  cstring (c :: s) <-> is_byte c = true /\ cstring s.
Proof. unfold cstring. simpl. apply andb_true_iff. Qed.

Lemma cstring_app (r s : cursor) :
  cstring (r ++ s) <-> cstring r /\ cstring s.
Proof. unfold cstring. rewrite forallb_app. apply andb_true_iff. Qed.

Lemma cstring_digit_rest (s : cursor) : cstring s -> cstring (digit_rest s).
Proof.
  intros H. rewrite <- (take_drop_while isdigit s) in H.
  now apply cstring_app in H.
Qed.

Lemma cstring_text_rest (s : cursor) : cstring s -> cstring (text_rest s).
Proof.
  intros H. rewrite <- (take_drop_while is_text s) in H.
  now apply cstring_app in H.
Qed.


Lemma tokens_head (c : uchar) (s : list uchar) :
  exists r ts, tokens (c :: s) = (isdigit c, r) :: ts.
Proof.
  simpl. destruct (tokens s) as [|[d r] ts]; [now eexists _, _|].
  destruct (Bool.eqb d (isdigit c)) eqn:E; [|now eexists _, _].
  apply eqb_prop in E. subst d. now eexists _, _.
Qed.

Lemma tokens_run (d : bool) (r s : list uchar) :
  r <> [] ->
  forallb (fun c => Bool.eqb (isdigit c) d) r = true ->
  match s with [] => True | e :: _ => isdigit e = negb d end ->
  tokens (r ++ s) = (d, r) :: tokens s.
Proof.
  intros Hne Hr Hs. induction r as [|c r IH]; [congruence|].
  simpl in Hr. apply andb_prop in Hr. destruct Hr as [Hc Hr].
  apply eqb_prop in Hc.
  destruct r as [|c' r].
  - simpl. destruct s as [|e s]; [now rewrite Hc|].
    destruct (tokens_head e s) as [r' [ts E]]. rewrite E, Hs, Hc.
    now destruct d.
  - rewrite <- app_comm_cons.
    change (tokens (c :: (c' :: r) ++ s))
      with (match tokens ((c' :: r) ++ s) with
            | (d, r) :: ts =>
                if Bool.eqb d (isdigit c)
                then (d, c :: r) :: ts
                else (isdigit c, [c]) :: (d, r) :: ts
            | [] => [(isdigit c, [c])]
            end).
    rewrite IH; [|discriminate|exact Hr]. rewrite Hc.
    now destruct d.
Qed.

Lemma tokens_digit_run (a : cursor) :
  isdigit (deref a) = true ->
  tokens a = (true, digit_run a) :: tokens (digit_rest a) /\
  (length (digit_rest a) < length a)%nat.
Proof.
  intros H. destruct (isdigit_deref a H) as [c [a' [-> Hc]]].
  split.
  - rewrite <- (take_drop_while isdigit (c :: a')) at 1.
    apply tokens_run.
    + simpl. rewrite Hc. discriminate.
    + apply forallb_impl with (p := isdigit); [|apply take_while_all].
      intros x Hx. now rewrite Hx.
    + pose proof (drop_while_stops isdigit (c :: a')) as S.
      unfold digit_rest.
      now destruct (drop_while isdigit (c :: a')).
  - unfold digit_rest. simpl. rewrite Hc. simpl.
    pose proof (length_drop_while isdigit a'). lia.
Qed.

Lemma text_rest_stops (a : cursor) :
  nonzero (deref (text_rest a)) = true ->
  isdigit (deref (text_rest a)) = true.
Proof.
  unfold text_rest. pose proof (drop_while_stops is_text a) as S.
  destruct (drop_while is_text a) as [|e s]; simpl; [discriminate|].
  unfold is_text in S. intros N. rewrite N in S. simpl in S.
  now destruct (isdigit e).
Qed.

Lemma tokens_text_run (a : cursor) :
  cstring a -> is_text (deref a) = true ->
  tokens a = (false, text_run a) :: tokens (text_rest a) /\
  (length (text_rest a) < length a)%nat.
Proof.
  intros Hs H. destruct a as [|c a']; [discriminate|]. simpl in H.
  split.
  - rewrite <- (take_drop_while is_text (c :: a')) at 1.
    apply tokens_run.
    + simpl. rewrite H. discriminate.
    + apply forallb_impl with (p := is_text); [|apply take_while_all].
      intros x Hx. now rewrite (is_text_nondigit _ Hx).
    + pose proof (text_rest_stops (c :: a')) as S.
      pose proof (cstring_text_rest _ Hs) as R.
      unfold text_rest in *.
      destruct (drop_while is_text (c :: a')) as [|e s]; [exact I|].
      apply S. apply cstring_cons in R. now apply is_byte_nonzero.
  - unfold text_rest. simpl. rewrite H. simpl.
    pose proof (length_drop_while is_text a'). lia.
Qed.

(** *** One run of the loop body *)

Lemma natcmp_loop_end (fuel : nat) (compare : natcmp_nondigit_cmp_func_t)
    (a b : cursor) :
  nonzero (deref a) && nonzero (deref b) = false ->
  natcmp_loop fuel compare a b = Ret (natcmp_tail a b).
Proof. intros H. destruct fuel; simpl; now rewrite H. Qed.

Lemma natcmp_loop_step (fuel : nat) (compare : natcmp_nondigit_cmp_func_t)
    (a b : cursor) :
  nonzero (deref a) && nonzero (deref b) = true ->
  natcmp_loop (S fuel) compare a b =
  match natcmp_body compare a b with
  | Return r => Ret r
  | Break a' b' => Ret (natcmp_tail a' b')
  | Continue a' b' => natcmp_loop fuel compare a' b'
  | Fault => Undefined
  end.
Proof. intros H. simpl. now rewrite H. Qed.

Lemma natcmp_body_digits (compare : natcmp_nondigit_cmp_func_t)
    (a b : cursor) :
  isdigit (deref a) = true -> isdigit (deref b) = true ->
  natcmp_body compare a b = natcmp_number a b.
Proof.
  intros Ha Hb. unfold natcmp_body, natcmp_classify. now rewrite Ha, Hb.
Qed.

Lemma natcmp_body_mixed (compare : natcmp_nondigit_cmp_func_t)
    (a b : cursor) :
  isdigit (deref a) <> isdigit (deref b) ->
  natcmp_body compare a b = Return (if isdigit (deref a) then -1 else 1).
Proof.
  intros H. unfold natcmp_body, natcmp_classify.
  destruct (isdigit (deref a)), (isdigit (deref b)); simpl;
    congruence.
Qed.

Lemma sign_of_result (r : Z) :
  r = -1 \/ r = 1 ->
  negb (r =? 0) = true /\ (if r <? 0 then -1 else 1) = r.
Proof. intros [-> | ->]; now split. Qed.

Lemma natcmp_body_ascii_text (a b : cursor) :
  isdigit (deref a) = false -> isdigit (deref b) = false ->
  natcmp_body ascii a b =
  match text_cmp (text_run a) (text_run b) with
  | Some r => Return r
  | None =>
      if negb (nonzero (deref (text_rest a)))
         || negb (nonzero (deref (text_rest b)))
      then Break (text_rest a) (text_rest b)
      else natcmp_number (text_rest a) (text_rest b)
  end.
Proof.
  intros Ha Hb. unfold natcmp_body, ascii. rewrite Ha, Hb. simpl.
  rewrite natcmp_nondigit_cmp_ascii_spec.
  destruct (text_cmp _ _) as [r|] eqn:E.
  - apply text_cmp_cases in E. apply sign_of_result in E.
    destruct E as [E1 E2]. cbn [res]. now rewrite E1, E2.
  - cbn [res end_a end_b]. simpl.
    destruct (nonzero (deref (text_rest a))) eqn:Na; [|reflexivity].
    destruct (nonzero (deref (text_rest b))) eqn:Nb; [|reflexivity].
    simpl. now rewrite (text_rest_stops _ Na), (text_rest_stops _ Nb).
Qed.

(** *** The loop computes [natural_order] *)


Lemma natcmp_tail_order (a b : cursor) :
  cstring a -> cstring b ->
  nonzero (deref a) && nonzero (deref b) = false ->
  natcmp_tail a b = int_of (natural_order a b).
Proof.
  intros Ha Hb H. unfold natcmp_tail, natural_order.
  destruct a as [|c a]; destruct b as [|d b]; simpl in H |- *.
  - reflexivity.
  - apply cstring_cons in Hb. destruct Hb as [Hd _].
    rewrite (is_byte_nonzero _ Hd).
    destruct (tokens_head d b) as [r [ts E]]. simpl in E. now rewrite E.
  - apply cstring_cons in Ha. destruct Ha as [Hc _].
    rewrite (is_byte_nonzero _ Hc).
    destruct (tokens_head c a) as [r [ts E]]. simpl in E. now rewrite E.
  - apply cstring_cons in Ha. apply cstring_cons in Hb.
    destruct Ha as [Hc _], Hb as [Hd _].
    rewrite (is_byte_nonzero _ Hc), (is_byte_nonzero _ Hd) in H.
    discriminate.
Qed.

Section LoopOrder.
Variable fuel : nat.
Hypothesis IH : forall a b,
  cstring a -> cstring b -> (length a + length b <= fuel)%nat ->
  natcmp_loop fuel ascii a b = Ret (int_of (natural_order a b)).

Lemma number_step_order (a b : cursor) :
  cstring a -> cstring b ->
  isdigit (deref a) = true -> isdigit (deref b) = true ->
  (length a + length b <= S fuel)%nat ->
  match natcmp_number a b with
  | Return r => Ret r
  | Break a' b' => Ret (natcmp_tail a' b')
  | Continue a' b' => natcmp_loop fuel ascii a' b'
  | Fault => Undefined
  end = Ret (int_of (natural_order a b)).
Proof.
  intros Ha Hb Da Db Hl.
  destruct (tokens_digit_run a Da) as [Ta La].
  destruct (tokens_digit_run b Db) as [Tb Lb].
  rewrite natcmp_number_spec, number_cmp_order.
  unfold natural_order. rewrite Ta, Tb. simpl.
  unfold token_order. simpl.
  destruct (digit_order (digit_run a) (digit_run b)); simpl;
    try reflexivity.
  apply IH; [now apply cstring_digit_rest..|lia].
Qed.

Lemma body_step_order (a b : cursor) :
  cstring a -> cstring b ->
  nonzero (deref a) && nonzero (deref b) = true ->
  (length a + length b <= S fuel)%nat ->
  match natcmp_body ascii a b with
  | Return r => Ret r
  | Break a' b' => Ret (natcmp_tail a' b')
  | Continue a' b' => natcmp_loop fuel ascii a' b'
  | Fault => Undefined
  end = Ret (int_of (natural_order a b)).
Proof.
  intros Ha Hb N Hl. apply andb_prop in N. destruct N as [Na Nb].
  destruct (isdigit (deref a)) eqn:Da, (isdigit (deref b)) eqn:Db.
  - rewrite natcmp_body_digits by assumption.
    now apply number_step_order.
  - rewrite natcmp_body_mixed by congruence. rewrite Da.
    destruct (tokens_digit_run a Da) as [Ta _].
    destruct (nonzero_deref b Nb) as [d [b' [-> _]]].
    destruct (tokens_head d b') as [r [ts E]]. simpl in Db.
    unfold natural_order. rewrite Ta, E, Db. reflexivity.
  - rewrite natcmp_body_mixed by congruence. rewrite Da.
    destruct (tokens_digit_run b Db) as [Tb _].
    destruct (nonzero_deref a Na) as [c [a' [-> _]]].
    destruct (tokens_head c a') as [r [ts E]]. simpl in Da.
    unfold natural_order. rewrite Tb, E, Da. reflexivity.
  - rewrite natcmp_body_ascii_text by assumption.
    assert (Xa : is_text (deref a) = true)
      by (unfold is_text; now rewrite Na, Da).
    assert (Xb : is_text (deref b) = true)
      by (unfold is_text; now rewrite Nb, Db).
    destruct (tokens_text_run a Ha Xa) as [Ta La].
    destruct (tokens_text_run b Hb Xb) as [Tb Lb].
    pose proof (cstring_text_rest _ Ha) as Ra.
    pose proof (cstring_text_rest _ Hb) as Rb.
    rewrite text_cmp_order.
    assert (E : natural_order a b =
                lex (text_order (text_run a) (text_run b))
                    (natural_order (text_rest a) (text_rest b))).
    { unfold natural_order. now rewrite Ta, Tb. }
    rewrite E.
    destruct (text_order (text_run a) (text_run b)); simpl;
      try reflexivity.
    destruct (nonzero (deref (text_rest a))) eqn:Za; simpl.
    + destruct (nonzero (deref (text_rest b))) eqn:Zb; simpl.
      * apply number_step_order; try assumption;
          [now apply text_rest_stops..|lia].
      * f_equal. apply natcmp_tail_order; try assumption.
        now rewrite Za, Zb.
    + f_equal. apply natcmp_tail_order; try assumption.
      now rewrite Za.
Qed.
End LoopOrder.

Lemma natcmp_loop_order (fuel : nat) (a b : cursor) :
  cstring a -> cstring b -> (length a + length b <= fuel)%nat ->
  natcmp_loop fuel ascii a b = Ret (int_of (natural_order a b)).
Proof.
  revert a b. induction fuel as [|fuel IH]; intros a b Ha Hb Hl.
  - destruct a; [|simpl in Hl; lia]. destruct b; [|simpl in Hl; lia].
    reflexivity.
  - destruct (nonzero (deref a) && nonzero (deref b)) eqn:N.
    + rewrite natcmp_loop_step by exact N.
      now apply body_step_order.
    + rewrite natcmp_loop_end by exact N. f_equal.
      now apply natcmp_tail_order.
Qed.

(** ** When two strings compare equal *)

Lemma tolower_digit (c : uchar) : isdigit c = true -> tolower c = c.
Proof.
  unfold isdigit, tolower. intros H. apply andb_prop in H.
  destruct ((65 <=? c) && (c <=? 90)) eqn:E; [|reflexivity].
  apply andb_prop in E. lia.
Qed.

Lemma isdigit_tolower (c : uchar) : isdigit (tolower c) = isdigit c.
Proof.
  unfold tolower. destruct ((65 <=? c) && (c <=? 90)) eqn:E; [|reflexivity].
  apply andb_prop in E. unfold isdigit.
  destruct (Z.leb_spec 48 (c + 32)), (Z.leb_spec (c + 32) 57),
    (Z.leb_spec 48 c), (Z.leb_spec c 57); simpl; try reflexivity; lia.
Qed.

Lemma tolower_same_class (c d : uchar) :
  tolower c = tolower d -> isdigit c = isdigit d.
Proof.
  intros H. now rewrite <- (isdigit_tolower c), H, isdigit_tolower.
Qed.

Lemma map_tolower_digits (r : list uchar) :
  forallb isdigit r = true -> map tolower r = r.
Proof.
  induction r as [|c r IH]; simpl; [reflexivity|]. intros H.
  apply andb_prop in H. destruct H as [Hc Hr].
  now rewrite (tolower_digit _ Hc), IH.
Qed.

Lemma list_cmp_Z_eq (x y : list uchar) :
  list_cmp Z.compare x y = Eq -> x = y.
Proof.
  revert y. induction x as [|a x IH]; intros [|b y]; simpl;
    try discriminate; [reflexivity|].
  destruct (Z.compare_spec a b) as [E|E|E]; simpl; try discriminate.
  intros H. subst b. f_equal. now apply IH.
Qed.

Lemma zeros_eq (z1 z2 : list uchar) :
  forallb (Z.eqb 48) z1 = true -> forallb (Z.eqb 48) z2 = true ->
  length z1 = length z2 -> z1 = z2.
Proof.
  revert z2. induction z1 as [|a z1 IH]; intros [|b z2] H1 H2 Hl;
    cbn [forallb length] in *; try discriminate; [reflexivity|].
  apply andb_prop in H1. apply andb_prop in H2.
  destruct H1 as [Ha H1], H2 as [Hb H2].
  apply Z.eqb_eq in Ha. apply Z.eqb_eq in Hb. subst a b.
  f_equal. apply IH; [assumption..|lia].
Qed.

Lemma digit_order_eq (r1 r2 : list uchar) :
  digit_order r1 r2 = Eq -> r1 = r2.
Proof.
  unfold digit_order. intros H.
  destruct (Nat.compare _ _) eqn:E1; simpl in H; try discriminate.
  destruct (list_cmp _ _ _) eqn:E2; simpl in H; try discriminate.
  apply list_cmp_Z_eq in E2. apply Nat.compare_eq in H.
  destruct (significant_suffix r1) as [z1 [S1 Z1]].
  destruct (significant_suffix r2) as [z2 [S2 Z2]].
  assert (L : length z1 = length z2).
  { apply (f_equal (@length uchar)) in S1, S2, E2.
    rewrite length_app in S1, S2. lia. }
  rewrite S1, S2, E2. f_equal.
  now apply zeros_eq.
Qed.

Lemma token_order_eq (t1 t2 : token) :
  token_ok t1 = true -> token_ok t2 = true ->
  token_order t1 t2 = Eq <-> token_eqv t1 t2.
Proof.
  destruct t1 as [d1 r1], t2 as [d2 r2].
  unfold token_ok, token_order, token_eqv. simpl. intros O1 O2.
  destruct d1, d2; split; try discriminate; try (intros [H _]; discriminate).
  - intros H. apply digit_order_eq in H. now subst.
  - intros [_ H].
    rewrite !map_tolower_digits in H.
    + subst. apply (cmp_refl _ digit_order_laws).
    + eapply forallb_impl; [|exact O2]. intros x Hx. now apply eqb_prop in Hx.
    + eapply forallb_impl; [|exact O1]. intros x Hx. now apply eqb_prop in Hx.
  - intros H. apply list_cmp_Z_eq in H. now split.
  - intros [_ H]. unfold text_order. rewrite H.
    apply (cmp_refl _ (list_cmp_laws _ Z_compare_laws)).
Qed.

Lemma tokens_ok (s : list uchar) : forallb token_ok (tokens s) = true.
Proof.
  induction s as [|c s IH]; [reflexivity|]. simpl.
  destruct (tokens s) as [|[d r] ts].
  - simpl. unfold token_ok. simpl. now rewrite eqb_reflx.
  - simpl in IH. apply andb_prop in IH. destruct IH as [Ht Hts].
    destruct (Bool.eqb d (isdigit c)) eqn:E; simpl.
    + rewrite Hts, andb_true_r. unfold token_ok in *. simpl in *.
      apply eqb_prop in E. subst d. now rewrite eqb_reflx.
    + rewrite Ht, Hts. unfold token_ok. simpl. now rewrite eqb_reflx.
Qed.

Lemma tokens_concat (s : list uchar) : concat (map snd (tokens s)) = s.
Proof.
  induction s as [|c s IH]; [reflexivity|]. simpl.
  destruct (tokens s) as [|[d r] ts].
  - simpl in *. now rewrite <- IH.
  - destruct (Bool.eqb d (isdigit c)); simpl in *; now rewrite IH.
Qed.

Lemma tokens_fold_eqv (a b : list uchar) :
  map tolower a = map tolower b -> Forall2 token_eqv (tokens a) (tokens b).
Proof.
  revert b. induction a as [|c a IH]; intros [|d b]; simpl;
    try discriminate; [constructor|].
  intros H. injection H as Hc H. specialize (IH b H).
  pose proof (tolower_same_class _ _ Hc) as Hd.
  inversion IH as [|[d1 r1] [d2 r2] ts1 ts2 [E1 E2] F]; simpl in *.
  - constructor; [|constructor]. split; simpl; congruence.
  - subst d2. rewrite <- Hd.
    destruct (Bool.eqb d1 (isdigit c)).
    + constructor; [|exact F]. split; simpl; congruence.
    + constructor; [split; simpl; congruence|].
      constructor; [now split|exact F].
Qed.

Lemma eqv_fold_concat (ts1 ts2 : list token) :
  Forall2 token_eqv ts1 ts2 ->
  map tolower (concat (map snd ts1)) = map tolower (concat (map snd ts2)).
Proof.
  induction 1 as [|t1 t2 ts1 ts2 [_ H] _ IH]; [reflexivity|].
  simpl. now rewrite !map_app, H, IH.
Qed.

Lemma list_cmp_token_eq (ts1 ts2 : list token) :
  forallb token_ok ts1 = true -> forallb token_ok ts2 = true ->
  list_cmp token_order ts1 ts2 = Eq <-> Forall2 token_eqv ts1 ts2.
Proof.
  revert ts2. induction ts1 as [|t1 ts1 IH]; intros [|t2 ts2]; simpl.
  - intros _ _. split; [constructor|reflexivity].
  - intros _ _. split; [discriminate|inversion 1].
  - intros _ _. split; [discriminate|inversion 1].
  - intros O1 O2. apply andb_prop in O1. apply andb_prop in O2.
    destruct O1 as [O1 P1], O2 as [O2 P2].
    specialize (IH ts2 P1 P2).
    pose proof (token_order_eq t1 t2 O1 O2) as T.
    split.
    + intros H. destruct (token_order t1 t2); simpl in H; try discriminate.
      constructor; [now apply T | now apply IH].
    + inversion 1; subst.
      assert (E : token_order t1 t2 = Eq) by now apply T.
      rewrite E. simpl. now apply IH.
Qed.

Lemma natural_order_eq (a b : list uchar) :
  natural_order a b = Eq <-> map tolower a = map tolower b.
Proof.
  unfold natural_order.
  rewrite list_cmp_token_eq by apply tokens_ok.
  split.
  - intros H. apply eqv_fold_concat in H. now rewrite !tokens_concat in H.
  - apply tokens_fold_eqv.
Qed.



Lemma int_of_le (c : comparison) : int_of c <= 0 <-> c <> Gt.
Proof. destruct c; simpl; split; try lia; congruence. Qed.

Lemma int_of_zero (c : comparison) : int_of c = 0 <-> c = Eq.
Proof. destruct c; simpl; split; try lia; congruence. Qed.

(** ** Progress of the loop *)



Lemma strictly_advanced_trans (p q r : cursor) :
  advanced p q -> strictly_advanced q r -> strictly_advanced p r.
Proof.
  intros [x ->] [y [Hy ->]]. exists (x ++ y). split.
  - destruct x; simpl; [exact Hy|discriminate].
  - now rewrite app_assoc.
Qed.

Lemma strictly_advanced_length (p q : cursor) :
  strictly_advanced p q -> (length q < length p)%nat.
Proof.
  intros [r [Hr ->]]. rewrite length_app.
  destruct r; [congruence|simpl; lia].
Qed.

Lemma advanced_length (p q : cursor) :
  advanced p q -> (length q <= length p)%nat.
Proof. intros [r ->]. rewrite length_app. lia. Qed.

Lemma advanced_text_rest (a : cursor) : advanced a (text_rest a).
Proof.
  exists (text_run a). symmetry. apply take_drop_while.
Qed.

Lemma advanced_digit_rest (a : cursor) : advanced a (digit_rest a).
Proof.
  exists (digit_run a). symmetry. apply take_drop_while.
Qed.

Lemma strictly_advanced_digit_rest (a : cursor) :
  isdigit (deref a) = true -> strictly_advanced a (digit_rest a).
Proof.
  intros H. exists (digit_run a). split.
  - destruct (isdigit_deref a H) as [c [a' [-> Hc]]].
    unfold digit_run. simpl. rewrite Hc. discriminate.
  - symmetry. apply take_drop_while.
Qed.

Lemma strictly_advanced_text_rest (a : cursor) :
  is_text (deref a) = true -> strictly_advanced a (text_rest a).
Proof.
  intros H. exists (text_run a). split.
  - destruct a as [|c a']; [discriminate|]. simpl in H.
    unfold text_run. simpl. rewrite H. discriminate.
  - symmetry. apply take_drop_while.
Qed.

Lemma natcmp_number_cases (a b : cursor) :
  (exists r, natcmp_number a b = Return r /\ (r = -1 \/ r = 1)) \/
  natcmp_number a b = Continue (digit_rest a) (digit_rest b).
Proof.
  rewrite natcmp_number_spec.
  destruct (number_cmp _ _) as [r|] eqn:E; [left|now right].
  exists r. split; [reflexivity|]. now apply number_cmp_cases in E.
Qed.

Lemma natcmp_tail_cases (a b : cursor) :
  natcmp_tail a b = -1 \/ natcmp_tail a b = 0 \/ natcmp_tail a b = 1.
Proof.
  unfold natcmp_tail.
  destruct (nonzero (deref b)); [|destruct (nonzero (deref a))]; auto.
Qed.

Lemma natcmp_classify_ok (a b a0 b0 : cursor) :
  (length a + length b <= length a0 + length b0)%nat ->
  (isdigit (deref a) = true -> isdigit (deref b) = true ->
   (length (digit_rest a) + length (digit_rest b)
    < length a0 + length b0)%nat) ->
  (isdigit (deref a) = false -> isdigit (deref b) = false ->
   (length a + length b < length a0 + length b0)%nat) ->
  step_ok a0 b0
    (natcmp_classify (isdigit (deref a)) (isdigit (deref b)) a b).
Proof.
  intros Hl Hd Hn. unfold natcmp_classify.
  destruct (isdigit (deref a)) eqn:Da, (isdigit (deref b)) eqn:Db; simpl;
    auto.
  - destruct (natcmp_number_cases a b) as [[r [-> Hr]]| ->]; simpl; auto.
  - destruct (natcmp_number_cases a b) as [[r [-> Hr]]| ->]; simpl; auto.
    pose proof (advanced_length _ _ (advanced_digit_rest a)).
    pose proof (advanced_length _ _ (advanced_digit_rest b)).
    specialize (Hn eq_refl eq_refl). lia.
Qed.

Lemma natcmp_body_ok (f : natcmp_nondigit_cmp_func_t) (a b : cursor) :
  progressing f ->
  nonzero (deref a) && nonzero (deref b) = true ->
  step_ok a b (natcmp_body f a b).
Proof.
  intros P N. apply andb_prop in N. destruct N as [Na Nb].
  unfold natcmp_body.
  destruct (negb (isdigit (deref a)) && negb (isdigit (deref b))) eqn:T.
  - apply andb_prop in T. destruct T as [Ta Tb].
    destruct (res (f a b) =? 0) eqn:R; simpl.
    + apply Z.eqb_eq in R.
      destruct (P a b) as [a' [b' [Ea [Eb Hl]]]]; try assumption.
      * unfold is_text. now rewrite Na, Ta.
      * unfold is_text. now rewrite Nb, Tb.
      * rewrite Ea, Eb.
        destruct (negb (nonzero (deref a')) || negb (nonzero (deref b')));
          [exact I|].
        apply natcmp_classify_ok; [lia| |lia].
        intros _ _.
        pose proof (advanced_length _ _ (advanced_digit_rest a')).
        pose proof (advanced_length _ _ (advanced_digit_rest b')).
        lia.
    + destruct (res (f a b) <? 0); auto.
  - apply natcmp_classify_ok; [lia| |].
    + intros Da Db.
      pose proof (strictly_advanced_length _ _
                    (strictly_advanced_digit_rest a Da)).
      pose proof (strictly_advanced_length _ _
                    (strictly_advanced_digit_rest b Db)).
      lia.
    + intros Da Db. rewrite Da, Db in T. discriminate.
Qed.

Lemma natcmp_loop_returns (f : natcmp_nondigit_cmp_func_t) (fuel : nat)
    (a b : cursor) :
  progressing f -> (length a + length b <= fuel)%nat ->
  exists r, natcmp_loop fuel f a b = Ret r /\ (r = -1 \/ r = 0 \/ r = 1).
Proof.
  intros P. revert a b. induction fuel as [|fuel IH]; intros a b Hl.
  - destruct a; [|simpl in Hl; lia]. destruct b; [|simpl in Hl; lia].
    exists 0. split; [reflexivity|auto].
  - destruct (nonzero (deref a) && nonzero (deref b)) eqn:N.
    + rewrite natcmp_loop_step by exact N.
      pose proof (natcmp_body_ok f a b P N) as S.
      destruct (natcmp_body f a b) as [r|a' b'|a' b'|]; simpl in S.
      * exists r. split; [reflexivity|tauto].
      * exists (natcmp_tail a' b'). split; [reflexivity|].
        apply natcmp_tail_cases.
      * apply IH. lia.
      * contradiction.
    + rewrite natcmp_loop_end by exact N.
      exists (natcmp_tail a b). split; [reflexivity|].
      apply natcmp_tail_cases.
Qed.

Lemma ascii_progressing : progressing ascii.
Proof.
  intros a b Ta Tb. unfold ascii.
  rewrite natcmp_nondigit_cmp_ascii_spec.
  destruct (text_cmp _ _) as [r|] eqn:E; simpl.
  - apply text_cmp_cases in E. intros ->. destruct E; discriminate.
  - intros _. exists (text_rest a), (text_rest b).
    split; [reflexivity|]. split; [reflexivity|].
    pose proof (strictly_advanced_length _ _
                  (strictly_advanced_text_rest a Ta)).
    pose proof (strictly_advanced_length _ _
                  (strictly_advanced_text_rest b Tb)).
    lia.
Qed.

Lemma natcmp_iterations_bound (f : natcmp_nondigit_cmp_func_t)
    (fuel : nat) (a b : cursor) :
  progressing f ->
  (natcmp_iterations fuel f a b <= length a + length b)%nat.
Proof.
  intros P. revert a b. induction fuel as [|fuel IH]; intros a b.
  - simpl. destruct (nonzero (deref a) && nonzero (deref b)); lia.
  - simpl. destruct (nonzero (deref a) && nonzero (deref b)) eqn:N; [|lia].
    pose proof (natcmp_body_ok f a b P N) as S.
    apply andb_prop in N. destruct N as [Na Nb].
    destruct (nonzero_deref a Na) as [c [a0 [-> _]]].
    destruct (nonzero_deref b Nb) as [d [b0 [-> _]]].
    destruct (natcmp_body f (c :: a0) (d :: b0)) as [r|a' b'|a' b'|];
      simpl in S |- *; try lia.
    specialize (IH a' b'). lia.
Qed.

(** The case-sensitive strategy of the test suite makes progress too. *)
Lemma strcmp_cb_scan_length (p q : cursor) :
  (length (fst (strcmp_cb_scan p q)) <= length p)%nat /\
  (length (snd (strcmp_cb_scan p q)) <= length q)%nat.
Proof.
  revert q. induction p as [|c p IH]; intros q; [simpl; lia|].
  destruct q as [|d q]; [simpl; lia|]. simpl.
  destruct (nonzero c && nonzero d && negb (isdigit c) && negb (isdigit d)
            && (c =? d)); [|simpl; lia].
  destruct (IH q). lia.
Qed.

Lemma strcmp_cb_progressing : progressing strcmp_cb.
Proof.
  intros a b Ta Tb.
  destruct a as [|c a]; [discriminate|].
  destruct b as [|d b]; [discriminate|].
  simpl in Ta, Tb. unfold strcmp_cb. simpl strcmp_cb_scan.
  pose proof (is_text_nondigit _ Ta) as Dc.
  pose proof (is_text_nondigit _ Tb) as Dd.
  unfold is_text in Ta, Tb. rewrite Dc in Ta. rewrite Dd in Tb.
  rewrite andb_true_r in Ta, Tb. rewrite Ta, Tb, Dc, Dd. simpl.
  destruct (c =? d) eqn:E.
  - pose proof (strcmp_cb_scan_length a b) as [La Lb].
    destruct (strcmp_cb_scan a b) as [p q]. simpl in *. intros _.
    exists p, q. repeat split. lia.
  - simpl. rewrite Dc, Dd, E. simpl.
    destruct (c <? d); discriminate.
Qed.

(** Only the sign of what the strategy returns is used. *)
Lemma same_sign_tests (x y : Z) :
  Z.sgn x = Z.sgn y -> (x =? 0) = (y =? 0) /\ (x <? 0) = (y <? 0).
Proof.
  intros H.
  destruct (Z.eqb_spec x 0), (Z.eqb_spec y 0), (Z.ltb_spec x 0),
    (Z.ltb_spec y 0); split; try reflexivity; lia.
Qed.

Lemma natcmp_body_same_sign (f g : natcmp_nondigit_cmp_func_t)
    (a b : cursor) :
  same_sign f g -> natcmp_body f a b = natcmp_body g a b.
Proof.
  intros S. unfold natcmp_body.
  destruct (S a b) as [Hs [Ha Hb]].
  destruct (same_sign_tests _ _ Hs) as [E1 E2].
  now rewrite E1, E2, Ha, Hb.
Qed.

Lemma natcmp_loop_same_sign (f g : natcmp_nondigit_cmp_func_t)
    (fuel : nat) (a b : cursor) :
  same_sign f g -> natcmp_loop fuel f a b = natcmp_loop fuel g a b.
Proof.
  intros S. revert a b. induction fuel as [|fuel IH]; intros a b.
  - reflexivity.
  - simpl. rewrite (natcmp_body_same_sign f g a b S).
    destruct (nonzero (deref a) && nonzero (deref b)); [|reflexivity].
    destruct (natcmp_body g a b); try reflexivity. apply IH.
Qed.

(** With [stuck_cb] the loop body leaves both cursors where they are. *)
Lemma stuck_cb_loops (fuel : nat) :
  natcmp_loop fuel stuck_cb [97] [97] = OutOfFuel.
Proof. induction fuel as [|fuel IH]; [reflexivity|exact IH]. Qed.

(** ** Every strategy *)

Lemma natcmp_body_return (f : natcmp_nondigit_cmp_func_t) (a b : cursor)
    (r : Z) :
  natcmp_body f a b = Return r -> r = -1 \/ r = 1.
Proof.
  assert (C : forall x y p q,
            natcmp_classify x y p q = Return r -> r = -1 \/ r = 1).
  { intros x y p q. unfold natcmp_classify.
    destruct (negb (Bool.eqb x y)).
    - intros H. injection H as <-. destruct x; auto.
    - destruct (natcmp_number_cases p q) as [[r' [-> Hr]]| ->];
        [|discriminate].
      intros H. injection H as <-. exact Hr. }
  unfold natcmp_body.
  destruct (negb (isdigit (deref a)) && negb (isdigit (deref b)));
    [|apply C].
  destruct (negb (res (f a b) =? 0)).
  - intros H. injection H as <-. destruct (res (f a b) <? 0); auto.
  - destruct (end_a (f a b)) as [a'|]; [|discriminate].
    destruct (end_b (f a b)) as [b'|]; [|discriminate].
    destruct (negb (nonzero (deref a')) || negb (nonzero (deref b')));
      [discriminate|apply C].
Qed.

Lemma natcmp_loop_range (f : natcmp_nondigit_cmp_func_t) (fuel : nat)
    (a b : cursor) (r : Z) :
  natcmp_loop fuel f a b = Ret r -> r = -1 \/ r = 0 \/ r = 1.
Proof.
  revert a b. induction fuel as [|fuel IH]; intros a b; simpl.
  - destruct (nonzero (deref a) && nonzero (deref b)); [discriminate|].
    intros H. injection H as <-. apply natcmp_tail_cases.
  - destruct (nonzero (deref a) && nonzero (deref b)).
    + destruct (natcmp_body f a b) as [r'|a' b'|a' b'|] eqn:E.
      * intros H. injection H as <-.
        destruct (natcmp_body_return f a b r' E); auto.
      * intros H. injection H as <-. apply natcmp_tail_cases.
      * apply IH.
      * discriminate.
    + intros H. injection H as <-. apply natcmp_tail_cases.
Qed.

Lemma natcmp_body_ok_at (f : natcmp_nondigit_cmp_func_t) (a b : cursor) :
  progresses_at f a b ->
  nonzero (deref a) && nonzero (deref b) = true ->
  step_ok a b (natcmp_body f a b).
Proof.
  intros P N. apply andb_prop in N. destruct N as [Na Nb].
  unfold natcmp_body.
  destruct (negb (isdigit (deref a)) && negb (isdigit (deref b))) eqn:T.
  - apply andb_prop in T. destruct T as [Ta Tb].
    destruct (res (f a b) =? 0) eqn:R; simpl.
    + apply Z.eqb_eq in R.
      destruct P as [a' [b' [Ea [Eb Hl]]]]; try assumption.
      * unfold is_text. now rewrite Na, Ta.
      * unfold is_text. now rewrite Nb, Tb.
      * rewrite Ea, Eb.
        destruct (negb (nonzero (deref a')) || negb (nonzero (deref b')));
          [exact I|].
        apply natcmp_classify_ok; [lia| |lia].
        intros _ _.
        pose proof (advanced_length _ _ (advanced_digit_rest a')).
        pose proof (advanced_length _ _ (advanced_digit_rest b')).
        lia.
    + destruct (res (f a b) <? 0); auto.
  - apply natcmp_classify_ok; [lia| |].
    + intros Da Db.
      pose proof (strictly_advanced_length _ _
                    (strictly_advanced_digit_rest a Da)).
      pose proof (strictly_advanced_length _ _
                    (strictly_advanced_digit_rest b Db)).
      lia.
    + intros Da Db. rewrite Da, Db in T. discriminate.
Qed.

Lemma loop_reaches_after (f : natcmp_nondigit_cmp_func_t)
    (a b p q x y : cursor) :
  nonzero (deref a) && nonzero (deref b) = true ->
  natcmp_body f a b = Continue p q ->
  loop_reaches f p q x y -> loop_reaches f a b x y.
Proof.
  intros N E R. induction R as [|u v u' v' R IH Nu Eu].
  - apply (reaches_step f a b a b p q); [constructor|exact N|exact E].
  - apply (reaches_step f a b u v u' v'); assumption.
Qed.

Lemma natcmp_loop_returns_on (f : natcmp_nondigit_cmp_func_t) (fuel : nat)
    (a b : cursor) :
  progressing_on f a b -> (length a + length b <= fuel)%nat ->
  exists r, natcmp_loop fuel f a b = Ret r /\ (r = -1 \/ r = 0 \/ r = 1).
Proof.
  revert a b. induction fuel as [|fuel IH]; intros a b P Hl.
  - destruct a; [|simpl in Hl; lia]. destruct b; [|simpl in Hl; lia].
    exists 0. split; [reflexivity|auto].
  - destruct (nonzero (deref a) && nonzero (deref b)) eqn:N.
    + rewrite natcmp_loop_step by exact N.
      pose proof (natcmp_body_ok_at f a b (P a b (reaches_start f a b)) N)
        as S.
      destruct (natcmp_body f a b) as [r|a' b'|a' b'|] eqn:E; simpl in S.
      * exists r. split; [reflexivity|tauto].
      * exists (natcmp_tail a' b'). split; [reflexivity|].
        apply natcmp_tail_cases.
      * apply IH; [|lia].
        intros p q R. apply P. exact (loop_reaches_after f a b a' b' p q N E R).
      * contradiction.
    + rewrite natcmp_loop_end by exact N.
      exists (natcmp_tail a b). split; [reflexivity|].
      apply natcmp_tail_cases.
Qed.

Lemma progressing_everywhere (f : natcmp_nondigit_cmp_func_t)
    (a b : cursor) :
  progressing f -> progressing_on f a b.
Proof. intros P p q _. exact (P p q). Qed.

(** Where [natcmp] never calls the strategy, the strategy cannot hold it
    up: two strings of digits only. *)
Lemma progressing_on_digits (f : natcmp_nondigit_cmp_func_t)
    (a b : cursor) :
  forallb isdigit a = true -> forallb isdigit b = true ->
  progressing_on f a b.
Proof.
  intros Da Db p q R.
  assert (H : forallb isdigit p = true /\ forallb isdigit q = true).
  { induction R as [|u v u' v' R IH Nu Eu]; [now split|].
    destruct IH as [Du Dv].
    apply andb_prop in Nu. destruct Nu as [Nu Nv].
    destruct (nonzero_deref u Nu) as [c [u0 [Hu _]]].
    destruct (nonzero_deref v Nv) as [d [v0 [Hv _]]].
    assert (Hc : isdigit (deref u) = true)
      by (rewrite Hu in Du |- *; simpl in *; apply andb_prop in Du; tauto).
    assert (Hd : isdigit (deref v) = true)
      by (rewrite Hv in Dv |- *; simpl in *; apply andb_prop in Dv; tauto).
    rewrite natcmp_body_digits in Eu by assumption.
    destruct (natcmp_number_cases u v) as [[r [E _]]|E]; rewrite E in Eu;
      [discriminate|].
    injection Eu as <- <-.
    rewrite <- (take_drop_while isdigit u), forallb_app in Du.
    rewrite <- (take_drop_while isdigit v), forallb_app in Dv.
    apply andb_prop in Du. apply andb_prop in Dv. unfold digit_rest. tauto. }
  destruct H as [Dp Dq]. intros Tp _.
  destruct p as [|c p]; [discriminate|]. simpl in Tp, Dp.
  apply andb_prop in Dp. destruct Dp as [Dc _].
  apply is_text_nondigit in Tp. congruence.
Qed.


(** * The claims of the specification *)

Lemma first_diff_at (x y : list uchar) (i : nat) (c d : uchar) :
  firstn i x = firstn i y ->
  nth_error x i = Some c -> nth_error y i = Some d -> c <> d ->
  first_diff x y = Some (c, d).
Proof. intros. apply first_diff_index. now exists i. Qed.

Lemma natcmp_at_number_part
    (compare : option natcmp_nondigit_cmp_func_t) (fuel : nat)
    (a b a' b' : cursor) :
  reaches_number_part (default_strategy compare) a b a' b' ->
  isdigit (deref a') = true -> isdigit (deref b') = true ->
  natcmp_body (default_strategy compare) a b = natcmp_number a' b' /\
  natcmp (S fuel) a b compare =
  match number_cmp (digit_run a') (digit_run b') with
  | Some r => Ret r
  | None => natcmp fuel (digit_rest a') (digit_rest b') compare
  end.
Proof.
  intros R Da Db.
  assert (B : natcmp_body (default_strategy compare) a b =
              natcmp_number a' b' /\
              nonzero (deref a) && nonzero (deref b) = true).
  { destruct R as [[-> ->]|[Na [Nb [Ta [Tb [R [Ea Eb]]]]]]].
    - split; [now apply natcmp_body_digits|].
      now rewrite (isdigit_nonzero _ Da), (isdigit_nonzero _ Db).
    - split; [|now rewrite Na, Nb].
      unfold natcmp_body. rewrite Ta, Tb, R, Ea, Eb. simpl.
      rewrite (isdigit_nonzero _ Da), (isdigit_nonzero _ Db). simpl.
      unfold natcmp_classify. now rewrite Da, Db. }
  destruct B as [B N]. split; [exact B|].
  unfold natcmp. rewrite natcmp_loop_step by exact N.
  rewrite B, natcmp_number_spec.
  now destruct (number_cmp _ _).
Qed.

(** C1. Whenever a run of the loop body comes to the number part with
    both cursors on digits, with the cursors the run started with or
    with the end cursors of a strategy call that returned 0, [natcmp]
    compares the two digit runs [ra] and [rb] found there through their
    significant digits [sa] and [sb] (the run without its leading
    zeros): (a) significant runs of different lengths: the shorter one
    is smaller; (b) same length: the first position where they differ
    decides; (c) same significant digits: the longer run (more leading
    zeros) is greater; (d) equal runs: both cursors move past their whole
    digit run and the loop goes on.  The two examples of the
    specification are evaluated at the end. *)
Theorem natcmp_digit_runs (compare : option natcmp_nondigit_cmp_func_t)
    (fuel : nat) (a b a' b' : cursor) :
  reaches_number_part (default_strategy compare) a b a' b' ->
  isdigit (deref a') = true -> isdigit (deref b') = true ->
  let ra := digit_run a' in
  let rb := digit_run b' in
  let sa := significant ra in
  let sb := significant rb in
  (* the runs and their significant digits *)
  (a' = ra ++ digit_rest a' /\ isdigit (deref (digit_rest a')) = false /\
   exists za, ra = za ++ sa /\ forallb (Z.eqb 48) za = true /\ sa <> []) /\
  (b' = rb ++ digit_rest b' /\ isdigit (deref (digit_rest b')) = false /\
   exists zb, rb = zb ++ sb /\ forallb (Z.eqb 48) zb = true /\ sb <> []) /\
  (* (a) *)
  (length sa <> length sb ->
   natcmp (S fuel) a b compare =
   Ret (if (length sa <? length sb)%nat then -1 else 1)) /\
  (* (b) *)
  (length sa = length sb ->
   forall i ca cb,
     firstn i sa = firstn i sb ->
     nth_error sa i = Some ca -> nth_error sb i = Some cb -> ca <> cb ->
     natcmp (S fuel) a b compare = Ret (if ca <? cb then -1 else 1)) /\
  (* (c) *)
  (sa = sb -> length ra <> length rb ->
   natcmp (S fuel) a b compare =
   Ret (if (length ra <? length rb)%nat then -1 else 1)) /\
  (* (d) *)
  (ra = rb ->
   natcmp_body (default_strategy compare) a b =
     Continue (digit_rest a') (digit_rest b') /\
   natcmp (S fuel) a b compare =
     natcmp fuel (digit_rest a') (digit_rest b') compare) /\
  (* the examples *)
  natcmp 9 (bytes "file2.txt") (bytes "file10.txt") None = Ret (-1) /\
  natcmp 10 (bytes "file02.txt") (bytes "file002.txt") None = Ret (-1).
Proof.
  intros R Da Db ra rb sa sb.
  destruct (natcmp_at_number_part compare fuel a b a' b' R Da Db) as [B E].
  fold ra rb in E. unfold number_cmp in E. fold sa sb in E.
  assert (Ra : forall s, isdigit (deref s) = true ->
            s = digit_run s ++ digit_rest s /\
            isdigit (deref (digit_rest s)) = false /\
            exists z, digit_run s = z ++ significant (digit_run s) /\
                      forallb (Z.eqb 48) z = true /\
                      significant (digit_run s) <> []).
  { intros s Ds. split; [symmetry; apply take_drop_while|]. split.
    - pose proof (drop_while_stops isdigit s) as S. unfold digit_rest.
      now destruct (drop_while isdigit s).
    - destruct (significant_suffix (digit_run s)) as [z [Hz Hall]].
      exists z. split; [exact Hz|]. split; [exact Hall|].
      apply significant_nonempty.
      destruct (isdigit_deref s Ds) as [c [s' [-> Hc]]].
      unfold digit_run. simpl. rewrite Hc. discriminate. }
  split; [exact (Ra a' Da)|]. split; [exact (Ra b' Db)|].
  split; [|split; [|split; [|split]]].
  - intros H. rewrite E. apply Nat.eqb_neq in H. now rewrite H.
  - intros H i ca cb H1 H2 H3 H4. rewrite E, H, Nat.eqb_refl. simpl.
    rewrite (first_diff_at _ _ _ _ _ H1 H2 H3 H4).
    now rewrite sign_of_sub.
  - intros H Hl. rewrite E, H, Nat.eqb_refl, first_diff_refl. simpl.
    apply Nat.eqb_neq in Hl. now rewrite Hl.
  - intros H. split.
    + rewrite B, natcmp_number_spec.
      fold ra rb. unfold number_cmp. fold sa sb. subst sa sb.
      now rewrite H, !Nat.eqb_refl, first_diff_refl.
    + rewrite E. subst sa sb.
      now rewrite H, !Nat.eqb_refl, first_diff_refl.
  - split; reflexivity.
Qed.

Lemma natcmp_digit_runs_witness :
  (* the number part reached with the arguments of the call *)
  (isdigit (deref (bytes "0012z")) = true /\
   isdigit (deref (bytes "007z")) = true /\
   natcmp 1 (bytes "0012z") (bytes "007z") None = Ret 1) /\
  (* the number part reached after the default strategy returned 0 *)
  (reaches_number_part natcmp_nondigit_cmp_ascii
     (bytes "file2.txt") (bytes "file10.txt")
     (bytes "2.txt") (bytes "10.txt") /\
   natcmp 1 (bytes "file2.txt") (bytes "file10.txt") None = Ret (-1)) /\
  (reaches_number_part natcmp_nondigit_cmp_ascii
     (bytes "file02.txt") (bytes "file002.txt")
     (bytes "02.txt") (bytes "002.txt") /\
   natcmp 1 (bytes "file02.txt") (bytes "file002.txt") None = Ret (-1)) /\
  (* and after the strategy of the test suite returned 0 *)
  (reaches_number_part strcmp_cb
     (bytes "abc123") (bytes "abc45") (bytes "123") (bytes "45") /\
   natcmp 1 (bytes "abc123") (bytes "abc45") (Some strcmp_cb) = Ret 1).
Proof.
  split; [|split; [|split]].
  - split; [reflexivity|]. split; [reflexivity|].
    destruct (natcmp_digit_runs None 0 (bytes "0012z") (bytes "007z")
                (bytes "0012z") (bytes "007z")
                (or_introl (conj eq_refl eq_refl)) eq_refl eq_refl)
      as [_ [_ [Ha _]]].
    apply Ha. vm_compute. discriminate.
  - assert (R : reaches_number_part natcmp_nondigit_cmp_ascii
                  (bytes "file2.txt") (bytes "file10.txt")
                  (bytes "2.txt") (bytes "10.txt"))
      by (right; repeat split; reflexivity).
    split; [exact R|].
    destruct (natcmp_digit_runs None 0 (bytes "file2.txt")
                (bytes "file10.txt") (bytes "2.txt") (bytes "10.txt")
                R eq_refl eq_refl)
      as [_ [_ [Ha _]]].
    apply Ha. vm_compute. discriminate.
  - assert (R : reaches_number_part natcmp_nondigit_cmp_ascii
                  (bytes "file02.txt") (bytes "file002.txt")
                  (bytes "02.txt") (bytes "002.txt"))
      by (right; repeat split; reflexivity).
    split; [exact R|].
    destruct (natcmp_digit_runs None 0 (bytes "file02.txt")
                (bytes "file002.txt") (bytes "02.txt") (bytes "002.txt")
                R eq_refl eq_refl)
      as [_ [_ [_ [_ [Hc _]]]]].
    apply Hc; [reflexivity | vm_compute; discriminate].
  - assert (R : reaches_number_part strcmp_cb
                  (bytes "abc123") (bytes "abc45")
                  (bytes "123") (bytes "45"))
      by (right; repeat split; reflexivity).
    split; [exact R|].
    destruct (natcmp_digit_runs (Some strcmp_cb) 0 (bytes "abc123")
                (bytes "abc45") (bytes "123") (bytes "45")
                R eq_refl eq_refl)
      as [_ [_ [Ha _]]].
    apply Ha. vm_compute. discriminate.
Defined.

(** C2. [natcmp_nondigit_cmp_ascii] scans each string to its first digit
    or terminator, which gives the text runs [ra] and [rb]; it compares
    their common-length prefixes after [tolower]; a difference there
    gives -1 or 1 and no end cursor is written; otherwise runs of
    different lengths give -1 for the shorter one, whatever follows the
    runs, and again no end cursor is written; it returns 0 only when
    content and length agree, and then both end cursors are written and
    sit on the first digit or terminator. *)
Theorem ascii_strategy_contract (a b : cursor) :
  let ra := text_run a in
  let rb := text_run b in
  let pa := map tolower (common ra rb) in
  let pb := map tolower (common rb ra) in
  let r := natcmp_nondigit_cmp_ascii a b in
  (* the independent scans *)
  (a = ra ++ text_rest a /\ forallb is_text ra = true /\
   (deref (text_rest a) = 0 \/ isdigit (deref (text_rest a)) = true)) /\
  (b = rb ++ text_rest b /\ forallb is_text rb = true /\
   (deref (text_rest b) = 0 \/ isdigit (deref (text_rest b)) = true)) /\
  (* the prefixes differ *)
  (forall i c d,
     firstn i pa = firstn i pb ->
     nth_error pa i = Some c -> nth_error pb i = Some d -> c <> d ->
     r = mk_result (if c <? d then -1 else 1) None None) /\
  (* the prefixes match, the lengths differ *)
  (pa = pb -> length ra <> length rb ->
   r = mk_result (if (length ra <? length rb)%nat then -1 else 1)
         None None) /\
  (* content and length match *)
  (pa = pb -> length ra = length rb ->
   r = mk_result 0 (Some (text_rest a)) (Some (text_rest b))) /\
  (* zero only then *)
  (res r = 0 -> pa = pb /\ length ra = length rb) /\
  (* what follows the runs is not looked at *)
  (forall a2 b2,
     text_run a2 = ra -> text_run b2 = rb ->
     res (natcmp_nondigit_cmp_ascii a2 b2) = res r).
Proof.
  intros ra rb pa pb r.
  assert (Hr : r = match text_cmp ra rb with
                   | Some r => mk_result r None None
                   | None => mk_result 0 (Some (text_rest a))
                               (Some (text_rest b))
                   end) by apply natcmp_nondigit_cmp_ascii_spec.
  assert (Hd : first_diff (map tolower ra) (map tolower rb) =
               first_diff pa pb).
  { unfold pa, pb. now rewrite <- !common_map, first_diff_common. }
  assert (Hl : length pa = length pb).
  { unfold pa, pb. rewrite !length_map. apply common_length. }
  assert (Scan : forall s,
            s = text_run s ++ text_rest s /\
            forallb is_text (text_run s) = true /\
            (deref (text_rest s) = 0 \/
             isdigit (deref (text_rest s)) = true)).
  { intros s. split; [symmetry; apply take_drop_while|].
    split; [apply take_while_all|].
    destruct (nonzero (deref (text_rest s))) eqn:N.
    - right. now apply text_rest_stops.
    - left. unfold nonzero in N. now destruct (Z.eqb_spec (deref (text_rest s)) 0). }
  split; [apply Scan|]. split; [apply Scan|].
  unfold text_cmp in Hr. rewrite Hd in Hr.
  split; [|split; [|split; [|split]]].
  - intros i c d H1 H2 H3 H4.
    rewrite Hr, (first_diff_at _ _ _ _ _ H1 H2 H3 H4).
    now rewrite sign_of_sub.
  - intros H N. rewrite Hr, H, first_diff_refl.
    apply Nat.eqb_neq in N. now rewrite N.
  - intros H N. now rewrite Hr, H, first_diff_refl, N, Nat.eqb_refl.
  - rewrite Hr. destruct (first_diff pa pb) as [[c d]|] eqn:E.
    + simpl. intros H. destruct (sign_of_cases (c - d)); lia.
    + destruct (Nat.eqb_spec (length ra) (length rb)) as [N|N]; simpl.
      * intros _. split; [|exact N]. now apply first_diff_none.
      * intros H. destruct (by_length_cases (length ra) (length rb)); lia.
  - intros a2 b2 Ha Hb. unfold r.
    rewrite !natcmp_nondigit_cmp_ascii_spec. fold ra rb.
    rewrite Ha, Hb. now destruct (text_cmp ra rb).
Qed.

Lemma ascii_strategy_contract_witness :
  natcmp_nondigit_cmp_ascii (bytes "ab12") (bytes "abc7") =
    mk_result (-1) None None /\
  natcmp_nondigit_cmp_ascii (bytes "Ab12") (bytes "aB7") =
    mk_result 0 (Some (bytes "12")) (Some (bytes "7")).
Proof.
  split.
  - destruct (ascii_strategy_contract (bytes "ab12") (bytes "abc7"))
      as [_ [_ [_ [Hl _]]]].
    apply Hl; [reflexivity | vm_compute; discriminate].
  - destruct (ascii_strategy_contract (bytes "Ab12") (bytes "aB7"))
      as [_ [_ [_ [_ [He _]]]]].
    apply He; reflexivity.
Defined.

Lemma natcmp_default_order (fuel : nat) (a b : cursor) :
  cstring a -> cstring b -> (length a + length b <= fuel)%nat ->
  natcmp fuel a b None = Ret (int_of (natural_order a b)).
Proof. apply natcmp_loop_order. Qed.

(** C3. With the default strategy and any bound on the loop that covers
    the three strings, all comparisons return, [natcmp x y <= 0] and
    [natcmp y z <= 0] give [natcmp x z <= 0], and any two strings are
    comparable: [natcmp x y <= 0] or [natcmp y x <= 0]. *)
Theorem natcmp_transitive (fuel : nat) (x y z : cursor) :
  cstring x -> cstring y -> cstring z ->
  (length x + length y + length z <= fuel)%nat ->
  exists rxy ryz rxz ryx,
    natcmp fuel x y None = Ret rxy /\
    natcmp fuel y z None = Ret ryz /\
    natcmp fuel x z None = Ret rxz /\
    natcmp fuel y x None = Ret ryx /\
    (rxy <= 0 -> ryz <= 0 -> rxz <= 0) /\
    (rxy <= 0 \/ ryx <= 0).
Proof.
  intros Hx Hy Hz Hl.
  exists (int_of (natural_order x y)), (int_of (natural_order y z)),
         (int_of (natural_order x z)), (int_of (natural_order y x)).
  repeat split; try (apply natcmp_default_order; try assumption; lia).
  - rewrite !int_of_le. apply (cmp_le_trans _ natural_order_laws).
  - rewrite (cmp_opp _ natural_order_laws x y).
    destruct (natural_order x y); simpl; lia.
Qed.

Lemma natcmp_transitive_witness :
  cstring (bytes "file2.txt") /\ cstring (bytes "File10.txt") /\
  cstring (bytes "file010.TXT") /\
  exists rxy ryz rxz ryx,
    natcmp 30 (bytes "file2.txt") (bytes "File10.txt") None = Ret rxy /\
    natcmp 30 (bytes "File10.txt") (bytes "file010.TXT") None = Ret ryz /\
    natcmp 30 (bytes "file2.txt") (bytes "file010.TXT") None = Ret rxz /\
    natcmp 30 (bytes "File10.txt") (bytes "file2.txt") None = Ret ryx /\
    (rxy <= 0 -> ryz <= 0 -> rxz <= 0) /\
    (rxy <= 0 \/ ryx <= 0).
Proof.
  split; [reflexivity|]. split; [reflexivity|]. split; [reflexivity|].
  apply (natcmp_transitive 30 (bytes "file2.txt") (bytes "File10.txt")
           (bytes "file010.TXT"));
    [reflexivity | reflexivity | reflexivity | vm_compute; lia].
Defined.

(** C4. With the default strategy, swapping the two strings negates the
    sign of the result. *)
Theorem natcmp_antisymmetric (fuel : nat) (x y : cursor) :
  cstring x -> cstring y -> (length x + length y <= fuel)%nat ->
  exists rxy ryx,
    natcmp fuel x y None = Ret rxy /\
    natcmp fuel y x None = Ret ryx /\
    Z.sgn rxy = - Z.sgn ryx.
Proof.
  intros Hx Hy Hl.
  exists (int_of (natural_order x y)), (int_of (natural_order y x)).
  repeat split; try (apply natcmp_default_order; try assumption; lia).
  rewrite (cmp_opp _ natural_order_laws x y).
  now destruct (natural_order x y).
Qed.

Lemma natcmp_antisymmetric_witness :
  cstring (bytes "a007") /\ cstring (bytes "A7") /\
  exists rxy ryx,
    natcmp 6 (bytes "a007") (bytes "A7") None = Ret rxy /\
    natcmp 6 (bytes "A7") (bytes "a007") None = Ret ryx /\
    Z.sgn rxy = - Z.sgn ryx.
Proof.
  split; [reflexivity|]. split; [reflexivity|].
  apply (natcmp_antisymmetric 6 (bytes "a007") (bytes "A7"));
    [reflexivity | reflexivity | vm_compute; lia].
Defined.

Lemma natcmp_body_ascii_advances (a b a' b' : cursor) :
  (natcmp_body ascii a b = Continue a' b' ->
   strictly_advanced a a' /\ strictly_advanced b b') /\
  (natcmp_body ascii a b = Break a' b' ->
   advanced a a' /\ advanced b b').
Proof.
  assert (N : forall p q p' q',
            isdigit (deref p) = true -> isdigit (deref q) = true ->
            (natcmp_number p q = Continue p' q' ->
             strictly_advanced p p' /\ strictly_advanced q q') /\
            (natcmp_number p q = Break p' q' -> False)).
  { intros p q p' q' Dp Dq.
    destruct (natcmp_number_cases p q) as [[r [-> _]]| ->];
      split; try discriminate.
    intros H. injection H as <- <-.
    split; now apply strictly_advanced_digit_rest. }
  destruct (isdigit (deref a)) eqn:Da, (isdigit (deref b)) eqn:Db.
  - rewrite natcmp_body_digits by assumption.
    destruct (N a b a' b' Da Db) as [N1 N2].
    split; [exact N1|]. intros H. now apply N2 in H.
  - rewrite natcmp_body_mixed by congruence. split; discriminate.
  - rewrite natcmp_body_mixed by congruence. split; discriminate.
  - rewrite natcmp_body_ascii_text by assumption.
    destruct (text_cmp _ _); [split; discriminate|].
    destruct (nonzero (deref (text_rest a))) eqn:Za; simpl.
    + destruct (nonzero (deref (text_rest b))) eqn:Zb; simpl.
      * destruct (N (text_rest a) (text_rest b) a' b'
                    (text_rest_stops _ Za) (text_rest_stops _ Zb))
          as [N1 N2].
        split; [|intros H; now apply N2 in H].
        intros H. destruct (N1 H) as [Sa Sb]. split.
        -- exact (strictly_advanced_trans _ _ _ (advanced_text_rest a) Sa).
        -- exact (strictly_advanced_trans _ _ _ (advanced_text_rest b) Sb).
      * split; [discriminate|]. intros H. injection H as <- <-.
        split; apply advanced_text_rest.
    + split; [discriminate|]. intros H. injection H as <- <-.
      split; apply advanced_text_rest.
Qed.

Lemma natcmp_body_ascii_moves (p q : cursor) :
  nonzero (deref p) && nonzero (deref q) = true ->
  (exists r, natcmp_body ascii p q = Return r) \/
  (exists p' q',
     (natcmp_body ascii p q = Break p' q' \/
      natcmp_body ascii p q = Continue p' q') /\
     strictly_advanced p p' /\ strictly_advanced q q').
Proof.
  intros N. apply andb_prop in N. destruct N as [Np Nq].
  assert (D : forall u v, isdigit (deref u) = true ->
            isdigit (deref v) = true ->
            (exists r, natcmp_number u v = Return r) \/
            natcmp_number u v = Continue (digit_rest u) (digit_rest v) /\
            strictly_advanced u (digit_rest u) /\
            strictly_advanced v (digit_rest v)).
  { intros u v Du Dv.
    destruct (natcmp_number_cases u v) as [[r [E _]]|E];
      [left; now exists r|right].
    split; [exact E|]. split; now apply strictly_advanced_digit_rest. }
  destruct (isdigit (deref p)) eqn:Dp, (isdigit (deref q)) eqn:Dq.
  - rewrite natcmp_body_digits by assumption.
    destruct (D p q Dp Dq) as [H|[E [Sp Sq]]]; [now left|right].
    exists (digit_rest p), (digit_rest q). auto.
  - left. rewrite natcmp_body_mixed by congruence. now eexists.
  - left. rewrite natcmp_body_mixed by congruence. now eexists.
  - assert (Tp : is_text (deref p) = true)
      by (unfold is_text; now rewrite Np, Dp).
    assert (Tq : is_text (deref q) = true)
      by (unfold is_text; now rewrite Nq, Dq).
    pose proof (strictly_advanced_text_rest p Tp) as Sp.
    pose proof (strictly_advanced_text_rest q Tq) as Sq.
    rewrite natcmp_body_ascii_text by assumption.
    destruct (text_cmp _ _) as [r|]; [left; now exists r|].
    destruct (nonzero (deref (text_rest p))) eqn:Zp; simpl.
    + destruct (nonzero (deref (text_rest q))) eqn:Zq; simpl.
      * destruct (D (text_rest p) (text_rest q)
                    (text_rest_stops _ Zp) (text_rest_stops _ Zq))
          as [H|[E [Ap Aq]]]; [now left|right].
        exists (digit_rest (text_rest p)), (digit_rest (text_rest q)).
        split; [now right|]. split.
        -- exact (strictly_advanced_trans _ _ _ (advanced_text_rest p) Ap).
        -- exact (strictly_advanced_trans _ _ _ (advanced_text_rest q) Aq).
      * right. exists (text_rest p), (text_rest q). auto.
    + right. exists (text_rest p), (text_rest q). auto.
Qed.

(** C5. With the default strategy [natcmp] returns once the loop body
    may run as many times as the two strings have bytes together, and
    the body never runs more often than that: every run of the body
    either returns or, ending in a [break] or at the end of the body,
    has moved both cursors strictly forward; no cursor ever moves
    backward. *)
Theorem natcmp_terminates (fuel : nat) (a b : cursor) :
  (length a + length b <= fuel)%nat ->
  (exists r, natcmp fuel a b None = Ret r) /\
  (forall n,
     (natcmp_iterations n natcmp_nondigit_cmp_ascii a b
      <= length a + length b)%nat) /\
  (forall p q p' q',
     natcmp_body natcmp_nondigit_cmp_ascii p q = Continue p' q' ->
     strictly_advanced p p' /\ strictly_advanced q q' /\
     (length p' + length q' < length p + length q)%nat) /\
  (forall p q p' q',
     natcmp_body natcmp_nondigit_cmp_ascii p q = Break p' q' ->
     advanced p p' /\ advanced q q') /\
  (* every run of the body made by the loop *)
  (forall p q,
     nonzero (deref p) && nonzero (deref q) = true ->
     (exists r, natcmp_body natcmp_nondigit_cmp_ascii p q = Return r) \/
     (exists p' q',
        (natcmp_body natcmp_nondigit_cmp_ascii p q = Break p' q' \/
         natcmp_body natcmp_nondigit_cmp_ascii p q = Continue p' q') /\
        strictly_advanced p p' /\ strictly_advanced q q' /\
        (length p' + length q' < length p + length q)%nat)).
Proof.
  intros Hl. split; [|split; [|split; [|split]]].
  - destruct (natcmp_loop_returns ascii fuel a b ascii_progressing Hl)
      as [r [Hr _]].
    now exists r.
  - intros n. apply (natcmp_iterations_bound ascii), ascii_progressing.
  - intros p q p' q' H.
    destruct (natcmp_body_ascii_advances p q p' q') as [A _].
    destruct (A H) as [Sp Sq]. split; [exact Sp|]. split; [exact Sq|].
    apply strictly_advanced_length in Sp, Sq. lia.
  - intros p q p' q' H.
    destruct (natcmp_body_ascii_advances p q p' q') as [_ B].
    now apply B.
  - intros p q N.
    destruct (natcmp_body_ascii_moves p q N) as [H|[p' [q' [H [Sp Sq]]]]];
      [now left|right].
    exists p', q'. split; [exact H|]. split; [exact Sp|].
    split; [exact Sq|].
    apply strictly_advanced_length in Sp, Sq. lia.
Qed.

Lemma natcmp_terminates_witness :
  ((length (bytes "x10y") + length (bytes "x10yz") <= 9)%nat /\
   exists r, natcmp 9 (bytes "x10y") (bytes "x10yz") None = Ret r) /\
  (* a run of the body that ends in a break *)
  (nonzero (deref (bytes "ab")) && nonzero (deref (bytes "AB1")) = true /\
   natcmp_body natcmp_nondigit_cmp_ascii (bytes "ab") (bytes "AB1") =
     Break (bytes "") (bytes "1") /\
   ((exists r, natcmp_body natcmp_nondigit_cmp_ascii (bytes "ab")
                 (bytes "AB1") = Return r) \/
    (exists p' q',
       (natcmp_body natcmp_nondigit_cmp_ascii (bytes "ab") (bytes "AB1") =
          Break p' q' \/
        natcmp_body natcmp_nondigit_cmp_ascii (bytes "ab") (bytes "AB1") =
          Continue p' q') /\
       strictly_advanced (bytes "ab") p' /\
       strictly_advanced (bytes "AB1") q' /\
       (length p' + length q'
        < length (bytes "ab") + length (bytes "AB1"))%nat))).
Proof.
  split.
  - split; [vm_compute; lia|].
    apply (natcmp_terminates 9 (bytes "x10y") (bytes "x10yz")).
    vm_compute. lia.
  - split; [reflexivity|]. split; [reflexivity|].
    destruct (natcmp_terminates 5 (bytes "ab") (bytes "AB1"))
      as [_ [_ [_ [_ H]]]]; [vm_compute; lia|].
    apply H. reflexivity.
Defined.

(** C6. At the classification test, when exactly one of the two current
    bytes is a digit, [natcmp] returns at once: -1 when the digit is on
    side [a], 1 when it is on side [b].  The test is reached either
    directly, when not both current bytes are non-digits, or after a
    strategy call that returned 0 and left both end cursors off the
    terminator. *)
Theorem natcmp_digit_before_text
    (compare : option natcmp_nondigit_cmp_func_t) (fuel : nat)
    (a b : cursor) :
  nonzero (deref a) = true -> nonzero (deref b) = true ->
  (* without a strategy call *)
  (isdigit (deref a) <> isdigit (deref b) ->
   natcmp (S fuel) a b compare =
   Ret (if isdigit (deref a) then -1 else 1)) /\
  (* after a strategy call that returned 0 *)
  (forall a' b',
     isdigit (deref a) = false -> isdigit (deref b) = false ->
     res (default_strategy compare a b) = 0 ->
     end_a (default_strategy compare a b) = Some a' ->
     end_b (default_strategy compare a b) = Some b' ->
     nonzero (deref a') = true -> nonzero (deref b') = true ->
     isdigit (deref a') <> isdigit (deref b') ->
     natcmp (S fuel) a b compare =
     Ret (if isdigit (deref a') then -1 else 1)) /\
  (* the example *)
  natcmp 4 (bytes "1abc") (bytes "abc") None = Ret (-1).
Proof.
  intros Na Nb. unfold natcmp.
  rewrite natcmp_loop_step by now rewrite Na, Nb.
  split; [|split].
  - intros H. now rewrite natcmp_body_mixed.
  - intros a' b' Da Db R Ea Eb Na' Nb' H.
    unfold natcmp_body. rewrite Da, Db, R, Ea, Eb, Na', Nb'. simpl.
    unfold natcmp_classify.
    destruct (isdigit (deref a')), (isdigit (deref b')); simpl;
      congruence.
  - reflexivity.
Qed.

Lemma natcmp_digit_before_text_witness :
  nonzero (deref (bytes "ab1")) = true /\
  nonzero (deref (bytes "abc1")) = true /\
  natcmp 1 (bytes "ab1") (bytes "abc1") (Some strcmp_cb) = Ret (-1) /\
  natcmp 1 (bytes "abc") (bytes "1abc") None = Ret 1.
Proof.
  split; [reflexivity|]. split; [reflexivity|]. split.
  - destruct (natcmp_digit_before_text (Some strcmp_cb) 0
                (bytes "ab1") (bytes "abc1") eq_refl eq_refl)
      as [_ [H _]].
    apply (H (bytes "1") (bytes "c1")); try reflexivity.
    vm_compute. discriminate.
  - destruct (natcmp_digit_before_text None 0
                (bytes "abc") (bytes "1abc") eq_refl eq_refl)
      as [H _].
    apply H. vm_compute. discriminate.
Defined.

(** C7. When the loop ends because a cursor is on its terminator, by the
    loop test or by the [break] after a strategy call that returned 0,
    [natcmp] returns 1 if only [b]'s cursor is on its terminator, -1 if
    only [a]'s is, and 0 if both are. *)
Theorem natcmp_end_of_string
    (compare : option natcmp_nondigit_cmp_func_t) (fuel : nat)
    (a b : cursor) :
  (* the loop test fails *)
  (deref a = 0 \/ deref b = 0 ->
   natcmp fuel a b compare = Ret (natcmp_tail a b)) /\
  (* the break *)
  (forall a' b',
     is_text (deref a) = true -> is_text (deref b) = true ->
     res (default_strategy compare a b) = 0 ->
     end_a (default_strategy compare a b) = Some a' ->
     end_b (default_strategy compare a b) = Some b' ->
     deref a' = 0 \/ deref b' = 0 ->
     natcmp (S fuel) a b compare = Ret (natcmp_tail a' b')) /\
  (* the value returned after the loop *)
  (forall p q : cursor,
     (deref q = 0 -> deref p <> 0 -> natcmp_tail p q = 1) /\
     (deref p = 0 -> deref q <> 0 -> natcmp_tail p q = -1) /\
     (deref p = 0 -> deref q = 0 -> natcmp_tail p q = 0)) /\
  (* the examples *)
  natcmp 0 (bytes "") (bytes "") None = Ret 0 /\
  natcmp 0 (bytes "") (bytes "a") None = Ret (-1) /\
  natcmp 0 (bytes "a") (bytes "") None = Ret 1.
Proof.
  assert (Z : forall c, nonzero c = false <-> c = 0).
  { intros c. unfold nonzero. destruct (Z.eqb_spec c 0); simpl;
      split; congruence. }
  assert (NZ : forall c, nonzero c = true <-> c <> 0).
  { intros c. unfold nonzero. destruct (Z.eqb_spec c 0); simpl;
      split; congruence. }
  split; [|split; [|split]].
  - intros H. unfold natcmp. apply natcmp_loop_end.
    destruct H as [H|H]; apply Z in H; rewrite H;
      [reflexivity|apply andb_false_r].
  - intros a' b' Ta Tb R Ea Eb H. unfold natcmp.
    unfold is_text in Ta, Tb.
    apply andb_prop in Ta. apply andb_prop in Tb.
    destruct Ta as [Na Da], Tb as [Nb Db].
    rewrite natcmp_loop_step by now rewrite Na, Nb.
    unfold natcmp_body. rewrite Da, Db, R, Ea, Eb. simpl.
    destruct H as [H|H]; apply Z in H; rewrite H;
      [reflexivity|now rewrite orb_true_r].
  - intros p q. unfold natcmp_tail. repeat split.
    + intros Hq Hp. apply Z in Hq. apply NZ in Hp. now rewrite Hq, Hp.
    + intros Hp Hq. apply NZ in Hq. now rewrite Hq.
    + intros Hp Hq. apply Z in Hq. apply Z in Hp. now rewrite Hq, Hp.
  - repeat split; reflexivity.
Qed.

Lemma natcmp_end_of_string_witness :
  natcmp 0 (bytes "abc") (bytes "") None = Ret 1 /\
  natcmp 1 (bytes "abc") (bytes "ABC") None = Ret 0 /\
  natcmp 1 (bytes "ab") (bytes "ab1") (Some strcmp_cb) = Ret (-1).
Proof.
  split; [|split].
  - destruct (natcmp_end_of_string None 0 (bytes "abc") (bytes ""))
      as [H _].
    apply H. right. reflexivity.
  - destruct (natcmp_end_of_string None 0 (bytes "abc") (bytes "ABC"))
      as [_ [H _]].
    apply (H (bytes "") (bytes "")); try reflexivity. left. reflexivity.
  - destruct (natcmp_end_of_string (Some strcmp_cb) 0
                (bytes "ab") (bytes "ab1"))
      as [_ [H _]].
    apply (H (bytes "") (bytes "1")); try reflexivity. left. reflexivity.
Defined.

(** C8. A [NULL] strategy gives the result of the same call with
    [natcmp_nondigit_cmp_ascii]: the two calls run alike for every bound
    on the loop, and both return the same value once the bound covers the
    two strings. *)
Theorem natcmp_null_strategy (fuel : nat) (a b : cursor) :
  natcmp fuel a b None =
    natcmp fuel a b (Some natcmp_nondigit_cmp_ascii) /\
  ((length a + length b <= fuel)%nat ->
   exists r,
     natcmp fuel a b None = Ret r /\
     natcmp fuel a b (Some natcmp_nondigit_cmp_ascii) = Ret r).
Proof.
  split; [reflexivity|]. intros Hl.
  destruct (natcmp_loop_returns ascii fuel a b ascii_progressing Hl)
    as [r [Hr _]].
  exists r. split; exact Hr.
Qed.

Lemma natcmp_null_strategy_witness :
  exists r,
    natcmp 20 (bytes "File10.txt") (bytes "file2.txt") None = Ret r /\
    natcmp 20 (bytes "File10.txt") (bytes "file2.txt")
      (Some natcmp_nondigit_cmp_ascii) = Ret r.
Proof.
  apply (natcmp_null_strategy 20 (bytes "File10.txt") (bytes "file2.txt")).
  vm_compute. lia.
Defined.

Lemma scaled_cb_same_sign : same_sign natcmp_nondigit_cmp_ascii scaled_cb.
Proof.
  intros a b. unfold scaled_cb. simpl. repeat split.
  destruct (res (natcmp_nondigit_cmp_ascii a b)); reflexivity.
Qed.

(** C9, as the code has it.  For every strategy [f] and all strings:
    whatever [natcmp] returns is -1, 0 or 1; a strategy [g] that agrees
    with [f] on the sign of every result and on the end cursors makes
    [natcmp] run alike, for any bound on the loop; and [natcmp] does
    return, once the loop body may run as many times as the two strings
    have bytes together, when [f] makes progress on every call [natcmp]
    makes to it (called on two non-NUL, non-digit bytes, a zero result
    comes with both end cursors written and with less left to read).
    That is so for every strategy on two strings of digits, and on all
    strings for a strategy that makes progress wherever it is called. *)
Theorem natcmp_three_way (f g : natcmp_nondigit_cmp_func_t)
    (a b : cursor) :
  (* the values returned *)
  (forall fuel r,
     natcmp fuel a b (Some f) = Ret r -> r = -1 \/ r = 0 \/ r = 1) /\
  (* only the sign of what the strategy returns matters *)
  (same_sign f g ->
   forall fuel, natcmp fuel a b (Some g) = natcmp fuel a b (Some f)) /\
  (* when natcmp returns *)
  (progressing_on f a b ->
   forall fuel, (length a + length b <= fuel)%nat ->
   exists r,
     natcmp fuel a b (Some f) = Ret r /\ (r = -1 \/ r = 0 \/ r = 1)) /\
  (progressing f -> progressing_on f a b) /\
  (forallb isdigit a = true -> forallb isdigit b = true ->
   progressing_on f a b).
Proof.
  split; [|split; [|split; [|split]]].
  - intros fuel r. apply natcmp_loop_range.
  - intros S fuel. unfold natcmp. simpl.
    symmetry. now apply natcmp_loop_same_sign.
  - intros P fuel Hl. now apply natcmp_loop_returns_on.
  - apply progressing_everywhere.
  - apply progressing_on_digits.
Qed.

Lemma natcmp_three_way_witness :
  (* a strategy that makes progress everywhere, and a scaled copy *)
  (progressing natcmp_nondigit_cmp_ascii /\
   same_sign natcmp_nondigit_cmp_ascii scaled_cb /\
   (length (bytes "abc7") + length (bytes "ABD7") <= 8)%nat /\
   (exists r,
      natcmp 8 (bytes "abc7") (bytes "ABD7")
        (Some natcmp_nondigit_cmp_ascii) = Ret r /\
      (r = -1 \/ r = 0 \/ r = 1)) /\
   natcmp 8 (bytes "abc7") (bytes "ABD7") (Some scaled_cb) =
     natcmp 8 (bytes "abc7") (bytes "ABD7")
       (Some natcmp_nondigit_cmp_ascii)) /\
  (* a strategy that never makes progress, where it is not called *)
  (exists r,
     natcmp 2 (bytes "1") (bytes "2") (Some stuck_cb) = Ret r /\
     (r = -1 \/ r = 0 \/ r = 1)).
Proof.
  split.
  - destruct (natcmp_three_way natcmp_nondigit_cmp_ascii scaled_cb
                (bytes "abc7") (bytes "ABD7"))
      as [_ [S [R [P _]]]].
    split; [exact ascii_progressing|].
    split; [exact scaled_cb_same_sign|].
    split; [vm_compute; lia|].
    split.
    + apply (R (P ascii_progressing) 8%nat). vm_compute. lia.
    + apply (S scaled_cb_same_sign 8%nat).
  - destruct (natcmp_three_way stuck_cb stuck_cb (bytes "1") (bytes "2"))
      as [_ [_ [R [_ D]]]].
    apply (R (D eq_refl eq_refl) 2%nat). vm_compute. lia.
Defined.

(** C9 as stated fails: with the strategy [stuck_cb], which returns 0 and
    leaves both cursors where they are, the loop of [natcmp] never ends
    on the strings "a" and "a", so no value is returned whatever the
    bound on the loop. *)
Lemma natcmp_stuck_strategy :
  (forall fuel,
     natcmp fuel (bytes "a") (bytes "a") (Some stuck_cb) = OutOfFuel) /\
  ~ (exists fuel r,
       natcmp fuel (bytes "a") (bytes "a") (Some stuck_cb) = Ret r).
Proof.
  assert (L : forall fuel,
            natcmp fuel (bytes "a") (bytes "a") (Some stuck_cb) = OutOfFuel)
    by exact stuck_cb_loops.
  split; [exact L|].
  intros [fuel [r H]]. rewrite L in H. discriminate.
Qed.

Lemma tolower_same_folded (c d : uchar) :
  tolower c = tolower d <-> same_folded c d.
Proof.
  unfold tolower, same_folded, is_upper.
  destruct (Z.leb_spec 65 c), (Z.leb_spec c 90), (Z.leb_spec 65 d),
    (Z.leb_spec d 90); simpl; split;
    try (intros [H | [[H1 H2] | [H1 H2]]]); try discriminate; lia.
Qed.

Lemma map_tolower_same_folded (a b : list uchar) :
  map tolower a = map tolower b <-> Forall2 same_folded a b.
Proof.
  revert b. induction a as [|c a IH]; intros [|d b]; simpl.
  - split; [constructor|reflexivity].
  - split; [discriminate|inversion 1].
  - split; [discriminate|inversion 1].
  - split.
    + intros H. injection H as Hc H. constructor.
      * now apply tolower_same_folded.
      * now apply IH.
    + inversion 1; subst. f_equal.
      * now apply tolower_same_folded.
      * now apply IH.
Qed.

(** C10. With the default strategy [natcmp a b] is 0 exactly when [a] and
    [b] have the same length and agree byte for byte up to the case of
    ASCII letters.  In particular a string compares equal to itself, and
    strings of different lengths never compare equal. *)
Theorem natcmp_zero_iff (fuel : nat) (a b : cursor) :
  cstring a -> cstring b -> (length a + length b <= fuel)%nat ->
  (natcmp fuel a b None = Ret 0 <-> Forall2 same_folded a b) /\
  (natcmp fuel a b None = Ret 0 <-> map tolower a = map tolower b) /\
  (natcmp fuel a b None = Ret 0 -> length a = length b) /\
  natcmp (length a + length a) a a None = Ret 0.
Proof.
  intros Ha Hb Hl.
  assert (E : natcmp fuel a b None = Ret 0 <->
              map tolower a = map tolower b).
  { rewrite (natcmp_default_order fuel a b Ha Hb Hl).
    rewrite <- natural_order_eq, <- int_of_zero.
    split; [intros H; now injection H | intros ->; reflexivity]. }
  split; [|split; [|split]].
  - rewrite E. apply map_tolower_same_folded.
  - exact E.
  - intros H. apply E in H. apply (f_equal (@length uchar)) in H.
    now rewrite !length_map in H.
  - rewrite (natcmp_default_order _ a a Ha Ha (le_n _)).
    now rewrite (cmp_refl _ natural_order_laws).
Qed.

Lemma natcmp_zero_iff_witness :
  cstring (bytes "File007.TXT") /\ cstring (bytes "fILE007.txt") /\
  (length (bytes "File007.TXT") + length (bytes "fILE007.txt") <= 22)%nat /\
  natcmp 22 (bytes "File007.TXT") (bytes "fILE007.txt") None = Ret 0.
Proof.
  split; [reflexivity|]. split; [reflexivity|].
  split; [vm_compute; lia|].
  destruct (natcmp_zero_iff 22 (bytes "File007.TXT") (bytes "fILE007.txt"))
    as [_ [H _]]; [reflexivity | reflexivity | vm_compute; lia |].
  apply H. reflexivity.
Defined.

(** * Further properties of the code *)

(** X1. Whatever the strategy does, a value returned by [natcmp] is -1, 0
    or 1. *)
Theorem natcmp_returns_sign (compare : option natcmp_nondigit_cmp_func_t)
    (fuel : nat) (a b : cursor) (r : Z) :
  natcmp fuel a b compare = Ret r -> r = -1 \/ r = 0 \/ r = 1.
Proof.
  unfold natcmp. generalize (default_strategy compare). intros f.
  revert a b. induction fuel as [|fuel IH]; intros a b; simpl.
  - destruct (nonzero (deref a) && nonzero (deref b)); [discriminate|].
    intros H. injection H as <-. apply natcmp_tail_cases.
  - destruct (nonzero (deref a) && nonzero (deref b)).
    + destruct (natcmp_body f a b) as [r'|a' b'|a' b'|] eqn:E.
      * intros H. injection H as <-.
        destruct (natcmp_body_return f a b r' E); auto.
      * intros H. injection H as <-. apply natcmp_tail_cases.
      * apply IH.
      * discriminate.
    + intros H. injection H as <-. apply natcmp_tail_cases.
Qed.

Lemma natcmp_returns_sign_witness :
  natcmp 1 (bytes "a1") (bytes "b1") (Some scaled_cb) = Ret (-1) /\
  (-1 = -1 \/ -1 = 0 \/ -1 = 1).
Proof.
  split; [reflexivity|].
  apply (natcmp_returns_sign (Some scaled_cb) 1 (bytes "a1") (bytes "b1")).
  reflexivity.
Defined.

(** X2. When the strategy returns 0 on two non-NUL, non-digit bytes and
    has left an end cursor unwritten, [natcmp] reads the [NULL] the
    cursor was initialised with. *)
Theorem natcmp_unwritten_end_cursor
    (compare : option natcmp_nondigit_cmp_func_t) (fuel : nat)
    (a b : cursor) :
  is_text (deref a) = true -> is_text (deref b) = true ->
  res (default_strategy compare a b) = 0 ->
  end_a (default_strategy compare a b) = None \/
  end_b (default_strategy compare a b) = None ->
  natcmp (S fuel) a b compare = Undefined.
Proof.
  intros Ta Tb R E. unfold natcmp.
  unfold is_text in Ta, Tb.
  apply andb_prop in Ta. apply andb_prop in Tb.
  destruct Ta as [Na Da], Tb as [Nb Db].
  rewrite natcmp_loop_step by now rewrite Na, Nb.
  unfold natcmp_body. rewrite Da, Db, R. simpl.
  destruct E as [E|E]; rewrite E; [reflexivity|].
  now destruct (end_a (default_strategy compare a b)).
Qed.

Lemma natcmp_unwritten_end_cursor_witness :
  natcmp 1 (bytes "a") (bytes "b")
    (Some (fun a b => mk_result 0 (Some (next a)) None)) = Undefined.
Proof.
  apply (natcmp_unwritten_end_cursor
           (Some (fun a b => mk_result 0 (Some (next a)) None)) 0
           (bytes "a") (bytes "b"));
    try reflexivity.
  right. reflexivity.
Defined.

(** X3. With a strategy that writes both end cursors whenever it returns
    0, as the default strategy and [strcmp_cb] do, [natcmp] never reads a
    [NULL] end cursor. *)
Theorem natcmp_written_end_cursors (f : natcmp_nondigit_cmp_func_t)
    (fuel : nat) (a b : cursor) :
  writes_ends f -> natcmp fuel a b (Some f) <> Undefined.
Proof.
  intros W. unfold natcmp. simpl.
  revert a b. induction fuel as [|fuel IH]; intros a b; simpl.
  - destruct (nonzero (deref a) && nonzero (deref b)); discriminate.
  - destruct (nonzero (deref a) && nonzero (deref b)); [|discriminate].
    destruct (natcmp_body f a b) as [r'|a' b'|a' b'|] eqn:E;
      try discriminate; [apply IH|].
    exfalso. revert E. unfold natcmp_body.
    assert (C : forall x y p q, natcmp_classify x y p q <> Fault).
    { intros x y p q. unfold natcmp_classify.
      destruct (negb (Bool.eqb x y)); [discriminate|].
      destruct (natcmp_number_cases p q) as [[r' [-> _]]| ->];
        discriminate. }
    destruct (negb (isdigit (deref a)) && negb (isdigit (deref b)));
      [|apply C].
    destruct (res (f a b) =? 0) eqn:R; simpl; [|discriminate].
    apply Z.eqb_eq in R. destruct (W a b R) as [Wa Wb].
    destruct (end_a (f a b)) as [a'|]; [|congruence].
    destruct (end_b (f a b)) as [b'|]; [|congruence].
    destruct (negb (nonzero (deref a')) || negb (nonzero (deref b')));
      [discriminate|apply C].
Qed.

Lemma ascii_writes_ends : writes_ends natcmp_nondigit_cmp_ascii.
Proof.
  intros a b. rewrite natcmp_nondigit_cmp_ascii_spec.
  destruct (text_cmp _ _) as [r|] eqn:E; simpl.
  - apply text_cmp_cases in E. intros ->. destruct E; discriminate.
  - intros _. split; discriminate.
Qed.

Lemma strcmp_cb_writes_ends : writes_ends strcmp_cb.
Proof.
  intros a b _. unfold strcmp_cb.
  destruct (strcmp_cb_scan a b). simpl. split; discriminate.
Qed.

Lemma natcmp_written_end_cursors_witness :
  writes_ends natcmp_nondigit_cmp_ascii /\ writes_ends strcmp_cb /\
  natcmp 0 (bytes "ab1") (bytes "abc1") (Some strcmp_cb) <> Undefined /\
  natcmp 0 (bytes "ab1") (bytes "abc1") None <> Undefined.
Proof.
  split; [exact ascii_writes_ends|]. split; [exact strcmp_cb_writes_ends|].
  split.
  - exact (natcmp_written_end_cursors strcmp_cb 0 (bytes "ab1")
             (bytes "abc1") strcmp_cb_writes_ends).
  - exact (natcmp_written_end_cursors natcmp_nondigit_cmp_ascii 0
             (bytes "ab1") (bytes "abc1") ascii_writes_ends).
Defined.

(** X4. The default strategy is antisymmetric on its own: swapping the
    two strings negates its result, and when the result is 0 the two end
    cursors are swapped. *)
Theorem ascii_strategy_antisymmetric (a b : cursor) :
  res (natcmp_nondigit_cmp_ascii b a) =
    - res (natcmp_nondigit_cmp_ascii a b) /\
  (res (natcmp_nondigit_cmp_ascii a b) = 0 ->
   end_a (natcmp_nondigit_cmp_ascii b a) =
     end_b (natcmp_nondigit_cmp_ascii a b) /\
   end_b (natcmp_nondigit_cmp_ascii b a) =
     end_a (natcmp_nondigit_cmp_ascii a b)).
Proof.
  rewrite !natcmp_nondigit_cmp_ascii_spec, !text_cmp_order.
  rewrite (cmp_opp _ text_order_laws (text_run a) (text_run b)).
  destruct (text_order (text_run a) (text_run b)); simpl;
    split; try reflexivity; try discriminate.
  intros _. split; reflexivity.
Qed.

Lemma ascii_strategy_antisymmetric_witness :
  res (natcmp_nondigit_cmp_ascii (bytes "abd1") (bytes "ABC2")) =
    - res (natcmp_nondigit_cmp_ascii (bytes "ABC2") (bytes "abd1")) /\
  end_a (natcmp_nondigit_cmp_ascii (bytes "ABC2") (bytes "abc1")) =
    end_b (natcmp_nondigit_cmp_ascii (bytes "abc1") (bytes "ABC2")).
Proof.
  split.
  - apply (ascii_strategy_antisymmetric (bytes "ABC2") (bytes "abd1")).
  - apply (ascii_strategy_antisymmetric (bytes "abc1") (bytes "ABC2")).
    reflexivity.
Defined.

Lemma text_run_empty (a : cursor) :
  is_text (deref a) = false -> text_run a = [] /\ text_rest a = a.
Proof.
  unfold text_run, text_rest. destruct a as [|c a]; simpl; [now split|].
  intros ->. now split.
Qed.

Lemma text_run_nonempty (a : cursor) :
  is_text (deref a) = true -> text_run a <> [].
Proof.
  unfold text_run. destruct a as [|c a]; simpl; [discriminate|].
  intros ->. discriminate.
Qed.

(** X5. The default strategy on a cursor that rests on a digit or on the
    terminator: the run there is empty, so against another such cursor
    the result is 0 and neither cursor moves, and against a cursor on a
    non-digit byte the empty run is the smaller one. *)
Theorem ascii_strategy_empty_run (a b : cursor) :
  is_text (deref a) = false ->
  (is_text (deref b) = false ->
   natcmp_nondigit_cmp_ascii a b = mk_result 0 (Some a) (Some b)) /\
  (is_text (deref b) = true ->
   natcmp_nondigit_cmp_ascii a b = mk_result (-1) None None /\
   natcmp_nondigit_cmp_ascii b a = mk_result 1 None None).
Proof.
  intros Ta. destruct (text_run_empty a Ta) as [Ra Sa].
  split; intros Tb.
  - destruct (text_run_empty b Tb) as [Rb Sb].
    rewrite natcmp_nondigit_cmp_ascii_spec, Ra, Rb, Sa, Sb. reflexivity.
  - pose proof (text_run_nonempty b Tb) as Nb.
    rewrite !natcmp_nondigit_cmp_ascii_spec, Ra.
    destruct (text_run b) as [|c r]; [congruence|]. split; reflexivity.
Qed.

Lemma ascii_strategy_empty_run_witness :
  is_text (deref (bytes "12")) = false /\
  natcmp_nondigit_cmp_ascii (bytes "12") (bytes "") =
    mk_result 0 (Some (bytes "12")) (Some (bytes "")) /\
  natcmp_nondigit_cmp_ascii (bytes "12") (bytes "x") =
    mk_result (-1) None None.
Proof.
  split; [reflexivity|]. split.
  - apply (ascii_strategy_empty_run (bytes "12") (bytes "")); reflexivity.
  - apply (ascii_strategy_empty_run (bytes "12") (bytes "x")); reflexivity.
Defined.

Lemma tokens_alternating (s : list uchar) : alternating (tokens s) = true.
Proof.
  induction s as [|c s IH]; [reflexivity|]. simpl.
  destruct (tokens s) as [|[d r] ts]; [reflexivity|].
  destruct (Bool.eqb d (isdigit c)) eqn:E.
  - simpl in IH |- *. apply andb_prop in IH. destruct IH as [H1 H2].
    apply andb_prop in H1. destruct H1 as [_ H1]. now rewrite H1, H2.
  - change (alternating ((isdigit c, [c]) :: (d, r) :: ts))
      with (negb false && negb (Bool.eqb (isdigit c) d)
            && alternating ((d, r) :: ts)).
    apply andb_true_iff. split; [|exact IH]. simpl.
    destruct d, (isdigit c); simpl in *; congruence.
Qed.

(** X6. With the default strategy [natcmp] is the lexicographic
    comparison of the two strings cut into their maximal runs of digits
    and of other bytes: the runs of a string put together give the string
    back, every byte of a run is of the class of the run, runs are not
    empty and alternate in class; a digit run comes before a text run,
    digit runs are ordered by [digit_order], text runs by [text_order],
    and a string whose runs are used up first comes first. *)
Theorem natcmp_refines_natural_order (fuel : nat) (a b : cursor) :
  cstring a -> cstring b -> (length a + length b <= fuel)%nat ->
  natcmp fuel a b None =
    Ret (int_of (list_cmp token_order (tokens a) (tokens b))) /\
  concat (map snd (tokens a)) = a /\
  forallb token_ok (tokens a) = true /\
  alternating (tokens a) = true.
Proof.
  intros Ha Hb Hl. split; [now apply natcmp_loop_order|].
  split; [apply tokens_concat|]. split; [apply tokens_ok|].
  apply tokens_alternating.
Qed.

Lemma natcmp_refines_natural_order_witness :
  cstring (bytes "img12.png") /\ cstring (bytes "IMG012.png") /\
  natcmp 19 (bytes "img12.png") (bytes "IMG012.png") None =
    Ret (int_of (list_cmp token_order (tokens (bytes "img12.png"))
                   (tokens (bytes "IMG012.png")))).
Proof.
  split; [reflexivity|]. split; [reflexivity|].
  destruct (natcmp_refines_natural_order 19 (bytes "img12.png")
              (bytes "IMG012.png")) as [H _];
    [reflexivity | reflexivity | vm_compute; lia |].
  exact H.
Defined.

(** X7. With the default strategy, strings that compare equal are
    interchangeable (they compare alike against any third string), and
    "strictly before" is transitive. *)
Theorem natcmp_ties_and_strict_order (fuel : nat) (x y z : cursor) :
  cstring x -> cstring y -> cstring z ->
  (length x + length y + length z <= fuel)%nat ->
  (natcmp fuel x y None = Ret 0 ->
   natcmp fuel x z None = natcmp fuel y z None /\
   natcmp fuel z x None = natcmp fuel z y None) /\
  (natcmp fuel x y None = Ret (-1) -> natcmp fuel y z None = Ret (-1) ->
   natcmp fuel x z None = Ret (-1)).
Proof.
  intros Hx Hy Hz Hl.
  assert (E : forall p q, cstring p -> cstring q ->
            (length p + length q <= fuel)%nat ->
            natcmp fuel p q None = Ret (int_of (natural_order p q)))
    by (intros; now apply natcmp_loop_order).
  rewrite !E by (try assumption; lia).
  split.
  - intros H. injection H as H. apply int_of_zero in H. split; f_equal;
      f_equal.
    + now apply (cmp_eq_l _ natural_order_laws).
    + now apply (cmp_eq_r _ natural_order_laws).
  - intros H1 H2. injection H1 as H1. injection H2 as H2.
    assert (L : forall c, int_of c = -1 -> c = Lt)
      by (intros []; simpl; congruence || lia).
    apply L in H1. apply L in H2.
    now rewrite (cmp_lt_trans _ natural_order_laws x y z H1 H2).
Qed.

Lemma natcmp_ties_and_strict_order_witness :
  natcmp 12 (bytes "a1") (bytes "A1") None = Ret 0 /\
  natcmp 12 (bytes "a1") (bytes "a01") None =
    natcmp 12 (bytes "A1") (bytes "a01") None.
Proof.
  split; [reflexivity|].
  destruct (natcmp_ties_and_strict_order 12 (bytes "a1") (bytes "A1")
              (bytes "a01")) as [H _];
    [reflexivity | reflexivity | reflexivity | vm_compute; lia |].
  apply H. reflexivity.
Defined.

Lemma cstring_tolower (a : cursor) : cstring a -> cstring (map tolower a).
Proof.
  unfold cstring. induction a as [|c a IH]; simpl; [reflexivity|].
  intros H. apply andb_prop in H. destruct H as [Hc Ha].
  rewrite (IH Ha), andb_true_r. unfold is_byte, tolower in *.
  apply andb_prop in Hc.
  destruct ((65 <=? c) && (c <=? 90)) eqn:E.
  - apply andb_prop in E. apply andb_true_iff. lia.
  - apply andb_true_iff. lia.
Qed.

Lemma tolower_idempotent (c : uchar) : tolower (tolower c) = tolower c.
Proof.
  unfold tolower. destruct ((65 <=? c) && (c <=? 90)) eqn:E.
  - destruct ((65 <=? c + 32) && (c + 32 <=? 90)) eqn:E2; [|reflexivity].
    apply andb_prop in E. apply andb_prop in E2. lia.
  - now rewrite E.
Qed.

Lemma map_tolower_idempotent (a : list uchar) :
  map tolower (map tolower a) = map tolower a.
Proof.
  induction a as [|c a IH]; simpl; [reflexivity|].
  now rewrite tolower_idempotent, IH.
Qed.

(** X8. The default comparison is blind to the case of ASCII letters:
    replacing either string by its lower-case form does not change the
    result. *)
Theorem natcmp_case_insensitive (fuel : nat) (a b : cursor) :
  cstring a -> cstring b -> (length a + length b <= fuel)%nat ->
  natcmp fuel (map tolower a) b None = natcmp fuel a b None /\
  natcmp fuel a (map tolower b) None = natcmp fuel a b None.
Proof.
  intros Ha Hb Hl.
  assert (E : forall p q, cstring p -> cstring q ->
            (length p + length q <= fuel)%nat ->
            natcmp fuel p q None = Ret (int_of (natural_order p q)))
    by (intros; now apply natcmp_loop_order).
  assert (F : forall s, natural_order (map tolower s) s = Eq).
  { intros s. apply natural_order_eq. apply map_tolower_idempotent. }
  rewrite !E; try assumption; try (now apply cstring_tolower);
    try (rewrite length_map; lia).
  split; f_equal; f_equal.
  - apply (cmp_eq_l _ natural_order_laws), F.
  - apply (cmp_eq_r _ natural_order_laws), F.
Qed.

Lemma natcmp_case_insensitive_witness :
  natcmp 20 (map tolower (bytes "File10.TXT")) (bytes "file9.txt") None =
    natcmp 20 (bytes "File10.TXT") (bytes "file9.txt") None.
Proof.
  destruct (natcmp_case_insensitive 20 (bytes "File10.TXT")
              (bytes "file9.txt")) as [H _];
    [reflexivity | reflexivity | vm_compute; lia |].
  exact H.
Defined.

(** ** Digit runs as numbers *)

Lemma digit_value_from (r : list uchar) (v : Z) :
  fold_left (fun v c => 10 * v + (c - 48)) r v =
  v * 10 ^ Z.of_nat (length r) + digit_value r.
Proof.
  unfold digit_value. revert v. induction r as [|c r IH]; intros v.
  - simpl. lia.
  - cbn [fold_left length]. rewrite IH, (IH (10 * 0 + (c - 48))).
    rewrite Nat2Z.inj_succ, Z.pow_succ_r by lia. lia.
Qed.

Lemma digit_value_cons (c : uchar) (r : list uchar) :
  digit_value (c :: r) = (c - 48) * 10 ^ Z.of_nat (length r) + digit_value r.
Proof.
  unfold digit_value at 1. cbn [fold_left]. rewrite digit_value_from. lia.
Qed.

Lemma digit_value_app (x y : list uchar) :
  digit_value (x ++ y) =
  digit_value x * 10 ^ Z.of_nat (length y) + digit_value y.
Proof.
  unfold digit_value at 1. rewrite fold_left_app.
  fold (digit_value x). apply digit_value_from.
Qed.

Lemma isdigit_range (c : uchar) : isdigit c = true -> 0 <= c - 48 <= 9.
Proof. unfold isdigit. intros H. apply andb_prop in H. lia. Qed.

Lemma digit_value_bound (r : list uchar) :
  forallb isdigit r = true ->
  0 <= digit_value r < 10 ^ Z.of_nat (length r).
Proof.
  induction r as [|c r IH]; intros H.
  - unfold digit_value. simpl. lia.
  - cbn [forallb] in H. apply andb_prop in H. destruct H as [Hc Hr].
    apply isdigit_range in Hc. specialize (IH Hr).
    rewrite digit_value_cons. cbn [length].
    rewrite Nat2Z.inj_succ, Z.pow_succ_r by lia. nia.
Qed.

Lemma digit_value_zeros (z : list uchar) :
  forallb (Z.eqb 48) z = true -> digit_value z = 0.
Proof.
  induction z as [|c z IH]; intros H; [reflexivity|].
  cbn [forallb] in H. apply andb_prop in H. destruct H as [Hc Hz].
  apply Z.eqb_eq in Hc. subst c. rewrite digit_value_cons, (IH Hz). lia.
Qed.

Lemma digit_value_significant (r : list uchar) :
  digit_value (significant r) = digit_value r.
Proof.
  destruct (significant_suffix r) as [z [Hz Hall]].
  rewrite Hz at 2. rewrite digit_value_app, (digit_value_zeros z Hall). lia.
Qed.

Lemma significant_head (r : list uchar) :
  match significant r with
  | c :: _ :: _ => c <> 48
  | _ => True
  end.
Proof.
  induction r as [|c r IH]; [exact I|].
  destruct r as [|d r]; [exact I|].
  change (significant (c :: d :: r))
    with (if c =? 48 then significant (d :: r) else c :: d :: r).
  destruct (Z.eqb_spec c 48); [exact IH|assumption].
Qed.

Lemma digit_value_compare (x y : list uchar) :
  length x = length y ->
  forallb isdigit x = true -> forallb isdigit y = true ->
  Z.compare (digit_value x) (digit_value y) = list_cmp Z.compare x y.
Proof.
  revert y. induction x as [|c x IH]; intros [|d y] Hl Hx Hy;
    try discriminate; [reflexivity|].
  cbn [forallb] in Hx, Hy. apply andb_prop in Hx. apply andb_prop in Hy.
  destruct Hx as [Hc Hx], Hy as [Hd Hy]. injection Hl as Hl.
  pose proof (digit_value_bound x Hx) as Bx.
  pose proof (digit_value_bound y Hy) as By.
  rewrite !digit_value_cons, <- Hl in *. cbn [list_cmp].
  set (P := 10 ^ Z.of_nat (length x)) in *.
  destruct (Z.compare_spec c d) as [E|E|E]; cbn [lex].
  - subst d. rewrite <- (IH y Hl Hx Hy).
    destruct (Z.compare_spec (digit_value x) (digit_value y));
      [apply Z.compare_eq_iff|apply Z.compare_lt_iff|apply Z.compare_gt_iff];
      lia.
  - apply Z.compare_lt_iff. nia.
  - apply Z.compare_gt_iff. nia.
Qed.

Lemma digit_value_longer (x y : list uchar) :
  forallb isdigit x = true -> forallb isdigit y = true ->
  x <> [] -> (length x < length y)%nat ->
  match y with c :: _ :: _ => c <> 48 | _ => True end ->
  digit_value x < digit_value y.
Proof.
  intros Hx Hy Hn Hl Hh.
  pose proof (digit_value_bound x Hx) as Bx.
  destruct x as [|e x]; [congruence|].
  destruct y as [|c [|d y]]; [simpl in Hl; lia..|].
  cbn [forallb] in Hy. apply andb_prop in Hy. destruct Hy as [Hc Hy].
  pose proof (digit_value_bound (d :: y) Hy) as By.
  apply isdigit_range in Hc. rewrite (digit_value_cons c).
  assert (L : 10 ^ Z.of_nat (length (e :: x))
              <= 10 ^ Z.of_nat (length (d :: y))).
  { apply Z.pow_le_mono_r; [lia|]. simpl in Hl. simpl length. lia. }
  set (A := 10 ^ Z.of_nat (length (e :: x))) in *.
  set (B := 10 ^ Z.of_nat (length (d :: y))) in *.
  assert (B <= (c - 48) * B) by nia.
  lia.
Qed.

(** Digit runs are ordered by the number they denote, then by their
    length. *)
Lemma digit_order_value (ra rb : list uchar) :
  forallb isdigit ra = true -> forallb isdigit rb = true ->
  ra <> [] -> rb <> [] ->
  digit_order ra rb =
  lex (Z.compare (digit_value ra) (digit_value rb))
      (Nat.compare (length ra) (length rb)).
Proof.
  intros Da Db Na Nb. unfold digit_order.
  rewrite <- (digit_value_significant ra), <- (digit_value_significant rb).
  pose proof (significant_digits ra Da) as Sa.
  pose proof (significant_digits rb Db) as Sb.
  pose proof (significant_nonempty ra Na) as Ea.
  pose proof (significant_nonempty rb Nb) as Eb.
  pose proof (significant_head ra) as Ha.
  pose proof (significant_head rb) as Hb.
  destruct (Nat.compare_spec (length (significant ra))
                             (length (significant rb))) as [E|E|E];
    cbn [lex].
  - now rewrite (digit_value_compare _ _ E Sa Sb).
  - pose proof (digit_value_longer _ _ Sa Sb Ea E Hb) as L.
    apply Z.compare_lt_iff in L. now rewrite L.
  - pose proof (digit_value_longer _ _ Sb Sa Eb E Ha) as L.
    apply Z.compare_gt_iff in L. now rewrite L.
Qed.

Lemma tokens_text_digits (p d s : list uchar) :
  forallb is_text p = true -> forallb isdigit d = true -> d <> [] ->
  isdigit (deref s) = false ->
  tokens (p ++ d ++ s) =
  match p with
  | [] => (true, d) :: tokens s
  | _ :: _ => (false, p) :: (true, d) :: tokens s
  end.
Proof.
  intros Hp Hd Nd Hs.
  assert (T : tokens (d ++ s) = (true, d) :: tokens s).
  { apply tokens_run; [exact Nd| |].
    - apply forallb_impl with (p := isdigit); [|exact Hd].
      intros x Hx. now rewrite Hx.
    - destruct s; [exact I|exact Hs]. }
  destruct p as [|c p]; [exact T|].
  rewrite <- T. apply tokens_run; [discriminate| |].
  - apply forallb_impl with (p := is_text); [|exact Hp].
    intros x Hx. now rewrite (is_text_nondigit _ Hx).
  - destruct d as [|e d]; [congruence|]. simpl in Hd |- *.
    apply andb_prop in Hd. tauto.
Qed.

(** X9. Numbers inside names are compared as numbers.  For two strings
    with the same text prefix [p] followed by the digit runs [da] and
    [db] and then by anything that does not start with a digit, the
    default comparison is decided by the numbers the runs denote; runs
    that denote the same number are ordered by their length (the one with
    fewer leading zeros first); and when the runs are the same, the
    result is that of the comparison of what follows them. *)
Theorem natcmp_numeric_order (fuel : nat) (p da db sa sb : list uchar) :
  cstring (p ++ da ++ sa) -> cstring (p ++ db ++ sb) ->
  forallb is_text p = true ->
  forallb isdigit da = true -> forallb isdigit db = true ->
  da <> [] -> db <> [] ->
  isdigit (deref sa) = false -> isdigit (deref sb) = false ->
  (length (p ++ da ++ sa) + length (p ++ db ++ sb) <= fuel)%nat ->
  let r := natcmp fuel (p ++ da ++ sa) (p ++ db ++ sb) None in
  (digit_value da < digit_value db -> r = Ret (-1)) /\
  (digit_value db < digit_value da -> r = Ret 1) /\
  (digit_value da = digit_value db ->
   (length da < length db)%nat -> r = Ret (-1)) /\
  (digit_value da = digit_value db ->
   (length db < length da)%nat -> r = Ret 1) /\
  (da = db -> r = natcmp fuel sa sb None).
Proof.
  intros Ca Cb Hp Da Db Na Nb Sa Sb Hl r.
  assert (E : r = Ret (int_of
                (lex (lex (Z.compare (digit_value da) (digit_value db))
                          (Nat.compare (length da) (length db)))
                     (natural_order sa sb)))).
  { unfold r. rewrite (natcmp_default_order fuel _ _ Ca Cb Hl).
    unfold natural_order.
    rewrite !tokens_text_digits by assumption.
    rewrite <- (digit_order_value da db Da Db Na Nb).
    destruct p as [|c p]; [reflexivity|].
    cbn [list_cmp]. unfold token_order at 1. cbn [fst snd].
    now rewrite (cmp_refl _ text_order_laws). }
  split; [|split; [|split; [|split]]].
  - intros H. apply Z.compare_lt_iff in H. now rewrite E, H.
  - intros H. apply Z.compare_gt_iff in H. now rewrite E, H.
  - intros H L. rewrite E, H, Z.compare_refl.
    apply Nat.compare_lt_iff in L. now rewrite L.
  - intros H L. rewrite E, H, Z.compare_refl.
    apply Nat.compare_gt_iff in L. now rewrite L.
  - intros H. rewrite E, H, Z.compare_refl, Nat.compare_refl. cbn [lex].
    symmetry. apply natcmp_default_order.
    + apply cstring_app in Ca. destruct Ca as [_ Ca].
      apply cstring_app in Ca. tauto.
    + apply cstring_app in Cb. destruct Cb as [_ Cb].
      apply cstring_app in Cb. tauto.
    + rewrite !length_app in Hl. lia.
Qed.

Lemma natcmp_numeric_order_witness :
  natcmp 40 (bytes "chapter" ++ bytes "9" ++ bytes ".tex")
    (bytes "chapter" ++ bytes "010" ++ bytes "-draft.tex") None =
  Ret (-1).
Proof.
  destruct (natcmp_numeric_order 40 (bytes "chapter") (bytes "9")
              (bytes "010") (bytes ".tex") (bytes "-draft.tex"))
    as [H _];
    [reflexivity | reflexivity | reflexivity | reflexivity | reflexivity
    | discriminate | discriminate | reflexivity | reflexivity
    | vm_compute; lia |].
  apply H. reflexivity.
Defined.

(** ** A string and its extensions *)

Section RunsOfAppend.
Context {A : Type} (p : A -> bool).

Lemma take_while_append (a s : list A) :
  take_while p (a ++ s) =
  match drop_while p a with
  | [] => a ++ take_while p s
  | _ :: _ => take_while p a
  end.
Proof.
  induction a as [|c a IH]; [reflexivity|]. simpl.
  destruct (p c); [|reflexivity]. rewrite IH.
  now destruct (drop_while p a).
Qed.

Lemma drop_while_append (a s : list A) :
  drop_while p (a ++ s) =
  match drop_while p a with
  | [] => drop_while p s
  | _ :: _ => drop_while p a ++ s
  end.
Proof.
  induction a as [|c a IH]; simpl.
  - now destruct (drop_while p s).
  - destruct (p c); [exact IH|reflexivity].
Qed.

Lemma take_while_whole (a : list A) :
  drop_while p a = [] -> take_while p a = a.
Proof.
  intros H. rewrite <- (take_drop_while p a) at 2.
  now rewrite H, app_nil_r.
Qed.
End RunsOfAppend.

Lemma list_cmp_extend {A : Type} (cmp : A -> A -> comparison)
    (x y : list A) :
  preorder_cmp cmp ->
  list_cmp cmp x (x ++ y) = match y with [] => Eq | _ :: _ => Lt end.
Proof.
  intros L. induction x as [|a x IH]; simpl.
  - now destruct y.
  - now rewrite (cmp_refl _ L).
Qed.

Lemma text_order_extend (r t : list uchar) :
  text_order r (r ++ t) = match t with [] => Eq | _ :: _ => Lt end.
Proof.
  unfold text_order. rewrite map_app, (list_cmp_extend _ _ _ Z_compare_laws).
  now destruct t.
Qed.

Lemma digit_order_extend (r d : list uchar) :
  forallb isdigit r = true -> forallb isdigit d = true -> r <> [] ->
  digit_order r (r ++ d) = match d with [] => Eq | _ :: _ => Lt end.
Proof.
  intros Hr Hd Nr. destruct d as [|e d].
  - rewrite app_nil_r. apply (cmp_refl _ digit_order_laws).
  - rewrite digit_order_value; try assumption.
    + rewrite digit_value_app, length_app.
      pose proof (digit_value_bound r Hr) as Br.
      pose proof (digit_value_bound (e :: d) Hd) as Bd.
      assert (P : 1 <= 10 ^ Z.of_nat (length (e :: d)))
        by (apply Z.pow_le_mono_r with (a := 10) (b := 0); lia).
      set (k := 10 ^ Z.of_nat (length (e :: d))) in *.
      destruct (Z.compare_spec (digit_value r)
                  (digit_value r * k + digit_value (e :: d)))
        as [E|E|E]; cbn [lex].
      * apply Nat.compare_lt_iff. simpl. lia.
      * reflexivity.
      * nia.
    + rewrite forallb_app. now rewrite Hr, Hd.
    + destruct r; [congruence|discriminate].
Qed.

Lemma natural_order_extend (s : list uchar) (n : nat) (a : list uchar) :
  s <> [] -> (length a <= n)%nat -> cstring (a ++ s) ->
  natural_order a (a ++ s) = Lt.
Proof.
  intros Ns. revert a. induction n as [|n IH]; intros a Hl Hc.
  - destruct a; [|simpl in Hl; lia]. unfold natural_order. simpl.
    destruct s as [|c s]; [congruence|].
    destruct (tokens_head c s) as [r [ts E]]. now rewrite E.
  - destruct a as [|c a0] eqn:Ea.
    { unfold natural_order. simpl. destruct s as [|d s]; [congruence|].
      destruct (tokens_head d s) as [r [ts E]]. now rewrite E. }
    rewrite <- Ea in *.
    assert (Ca : cstring a) by (apply cstring_app in Hc; tauto).
    assert (Cs : cstring s) by (apply cstring_app in Hc; tauto).
    destruct (isdigit c) eqn:Dc.
    + assert (Da : isdigit (deref a) = true) by now rewrite Ea.
      assert (Das : isdigit (deref (a ++ s)) = true) by now rewrite Ea.
      destruct (tokens_digit_run a Da) as [Ta La].
      destruct (tokens_digit_run (a ++ s) Das) as [Tas _].
      unfold natural_order. rewrite Ta, Tas. cbn [list_cmp].
      unfold token_order at 1. cbn [fst snd].
      unfold digit_run, digit_rest in *.
      rewrite take_while_append, drop_while_append.
      destruct (drop_while isdigit a) as [|e r] eqn:Er.
      * rewrite (take_while_whole isdigit a Er).
        rewrite digit_order_extend;
          [|rewrite <- (take_while_whole isdigit a Er);
            apply take_while_all
           |apply take_while_all
           |rewrite Ea; discriminate].
        destruct (take_while isdigit s) as [|d ds] eqn:Es; [|reflexivity].
        cbn [lex]. simpl.
        assert (Rs : drop_while isdigit s = s).
        { rewrite <- (take_drop_while isdigit s) at 2. now rewrite Es. }
        rewrite Rs. destruct s as [|d s]; [congruence|].
        destruct (tokens_head d s) as [r' [ts E]]. now rewrite E.
      * rewrite (cmp_refl _ digit_order_laws). cbn [lex].
        apply IH.
        -- lia.
        -- rewrite <- (take_drop_while isdigit a), Er, <- app_assoc in Hc.
           apply cstring_app in Hc. tauto.
    + assert (Xa : is_text (deref a) = true).
      { rewrite Ea. simpl. unfold is_text. rewrite Dc.
        rewrite Ea in Ca. apply cstring_cons in Ca. destruct Ca as [Bc _].
        now rewrite (is_byte_nonzero _ Bc). }
      assert (Xas : is_text (deref (a ++ s)) = true) by now rewrite Ea in *.
      destruct (tokens_text_run a Ca Xa) as [Ta La].
      destruct (tokens_text_run (a ++ s) Hc Xas) as [Tas _].
      unfold natural_order. rewrite Ta, Tas. cbn [list_cmp].
      unfold token_order at 1. cbn [fst snd].
      unfold text_run, text_rest in *.
      rewrite take_while_append, drop_while_append.
      destruct (drop_while is_text a) as [|e r] eqn:Er.
      * rewrite (take_while_whole is_text a Er).
        rewrite text_order_extend.
        destruct (take_while is_text s) as [|d ds] eqn:Es; [|reflexivity].
        cbn [lex]. simpl.
        assert (Rs : drop_while is_text s = s).
        { rewrite <- (take_drop_while is_text s) at 2. now rewrite Es. }
        rewrite Rs. destruct s as [|d s]; [congruence|].
        destruct (tokens_head d s) as [r' [ts E]]. now rewrite E.
      * rewrite (cmp_refl _ text_order_laws). cbn [lex].
        apply IH.
        -- lia.
        -- rewrite <- (take_drop_while is_text a), Er, <- app_assoc in Hc.
           apply cstring_app in Hc. tauto.
Qed.

(** X10. With the default strategy a string comes strictly before each
    of its proper extensions, and an extension strictly after the string
    it extends. *)
Theorem natcmp_prefix_first (fuel : nat) (a s : list uchar) :
  cstring a -> cstring s -> s <> [] ->
  (length a + length (a ++ s) <= fuel)%nat ->
  natcmp fuel a (a ++ s) None = Ret (-1) /\
  natcmp fuel (a ++ s) a None = Ret 1.
Proof.
  intros Ca Cs Ns Hl.
  assert (Cas : cstring (a ++ s)) by now apply cstring_app.
  pose proof (natural_order_extend s (length a) a Ns (le_n _) Cas) as E.
  rewrite !natcmp_default_order by (try assumption; lia).
  rewrite (cmp_opp _ natural_order_laws a (a ++ s)), E. now split.
Qed.

Lemma natcmp_prefix_first_witness :
  natcmp 12 (bytes "v1.0") (bytes "v1.0" ++ bytes "0rc") None = Ret (-1).
Proof.
  destruct (natcmp_prefix_first 12 (bytes "v1.0") (bytes "0rc")) as [H _];
    [reflexivity | reflexivity | discriminate | vm_compute; lia |].
  exact H.
Defined.

(** X11. With the default strategy the loop body runs at most as many
    times as the shorter of the two strings has bytes, and [natcmp]
    returns within that many runs. *)
Theorem natcmp_shorter_string_bound (fuel : nat) (a b : cursor) :
  (Nat.min (length a) (length b) <= fuel)%nat ->
  (exists r, natcmp fuel a b None = Ret r) /\
  (forall n,
     (natcmp_iterations n natcmp_nondigit_cmp_ascii a b
      <= Nat.min (length a) (length b))%nat).
Proof.
  intros Hl. split.
  - unfold natcmp. simpl. revert a b Hl.
    induction fuel as [|fuel IH]; intros a b Hl.
    + destruct (nonzero (deref a) && nonzero (deref b)) eqn:N.
      * apply andb_prop in N. destruct N as [Na Nb].
        destruct (nonzero_deref a Na) as [c [a0 [-> _]]].
        destruct (nonzero_deref b Nb) as [d [b0 [-> _]]].
        simpl in Hl. lia.
      * rewrite natcmp_loop_end by exact N. now eexists.
    + destruct (nonzero (deref a) && nonzero (deref b)) eqn:N.
      * rewrite natcmp_loop_step by exact N.
        pose proof (natcmp_body_ok ascii a b ascii_progressing N) as S.
        pose proof (natcmp_body_ascii_advances a b) as Adv.
        fold ascii.
        destruct (natcmp_body ascii a b) as [r|a' b'|a' b'|];
          [now exists r | now exists (natcmp_tail a' b') |
          | simpl in S; contradiction].
        destruct (Adv a' b') as [Adv' _].
        destruct (Adv' eq_refl) as [Sa Sb].
        apply strictly_advanced_length in Sa, Sb.
        apply IH. lia.
      * rewrite natcmp_loop_end by exact N. now eexists.
  - intros n. fold ascii. revert a b Hl.
    induction n as [|n IH]; intros a b Hl; simpl.
    + destruct (nonzero (deref a) && nonzero (deref b)); lia.
    + destruct (nonzero (deref a) && nonzero (deref b)) eqn:N; [|lia].
      pose proof (natcmp_body_ascii_advances a b) as Adv.
      apply andb_prop in N. destruct N as [Na Nb].
      destruct (nonzero_deref a Na) as [c [a0 [Ea _]]].
      destruct (nonzero_deref b Nb) as [d [b0 [Eb _]]].
      assert (La : (1 <= length a)%nat) by (rewrite Ea; simpl; lia).
      assert (Lb : (1 <= length b)%nat) by (rewrite Eb; simpl; lia).
      destruct (natcmp_body ascii a b) as [r|a' b'|a' b'|]; try lia.
      destruct (Adv a' b') as [Adv' _].
      destruct (Adv' eq_refl) as [Sa Sb].
      apply strictly_advanced_length in Sa, Sb.
      assert (H : (natcmp_iterations n ascii a' b'
                   <= Nat.min (length a') (length b'))%nat)
        by (apply IH; lia).
      lia.
Qed.

Lemma natcmp_shorter_string_bound_witness :
  (Nat.min (length (bytes "a1")) (length (bytes "a1b2c3d4e5")) <= 2)%nat /\
  exists r, natcmp 2 (bytes "a1") (bytes "a1b2c3d4e5") None = Ret r.
Proof.
  split; [vm_compute; lia|].
  destruct (natcmp_shorter_string_bound 2 (bytes "a1") (bytes "a1b2c3d4e5"))
    as [H _]; [vm_compute; lia|].
  exact H.
Defined.

(** ** The case-sensitive strategy of the test suite *)

Lemma strcmp_cb_scan_spec (a b : cursor) :
  exists x,
    a = x ++ fst (strcmp_cb_scan a b) /\
    b = x ++ snd (strcmp_cb_scan a b) /\
    forallb is_text x = true /\
    strcmp_cb_goes_on (fst (strcmp_cb_scan a b))
                      (snd (strcmp_cb_scan a b)) = false.
Proof.
  revert b. induction a as [|c a IH]; intros b.
  - exists []. simpl. now destruct b.
  - destruct b as [|d b].
    + exists []. simpl. repeat split.
      unfold strcmp_cb_goes_on. simpl. now rewrite andb_false_r.
    + simpl.
      destruct (nonzero c && nonzero d && negb (isdigit c)
                && negb (isdigit d) && (c =? d)) eqn:E.
      * destruct (IH b) as [x [Ha [Hb [Hx Hs]]]].
        apply andb_prop in E. destruct E as [E Ecd].
        apply andb_prop in E. destruct E as [E Ed].
        apply andb_prop in E. destruct E as [E Ec].
        apply andb_prop in E. destruct E as [Nc Nd].
        apply Z.eqb_eq in Ecd. subst d.
        exists (c :: x). simpl. rewrite <- Ha, <- Hb.
        repeat split; try assumption.
        unfold is_text at 1. now rewrite Nc, Ec, Hx.
      * exists []. simpl. repeat split. exact E.
Qed.

(** X12. [strcmp_cb] removes from both strings their longest common
    prefix of non-NUL, non-digit bytes, always writes the two cursors
    that follow it, and returns 0 when one of them rests on a digit, and
    otherwise the comparison of the two bytes they rest on. *)
Theorem strcmp_cb_contract (a b : cursor) :
  exists x p q,
    a = x ++ p /\ b = x ++ q /\
    forallb is_text x = true /\
    strcmp_cb_goes_on p q = false /\
    strcmp_cb a b =
      mk_result
        (if isdigit (deref p) || isdigit (deref q) then 0
         else int_of (Z.compare (deref p) (deref q)))
        (Some p) (Some q).
Proof.
  destruct (strcmp_cb_scan_spec a b) as [x [Ha [Hb [Hx Hs]]]].
  unfold strcmp_cb. destruct (strcmp_cb_scan a b) as [p q].
  simpl in Ha, Hb, Hs. exists x, p, q.
  repeat split; try assumption. f_equal.
  destruct (isdigit (deref p) || isdigit (deref q)); [reflexivity|].
  destruct (Z.compare_spec (deref p) (deref q)),
    (Z.eqb_spec (deref p) (deref q)), (Z.ltb_spec (deref p) (deref q));
    simpl; try reflexivity; lia.
Qed.

Lemma strcmp_cb_contract_witness :
  exists x p q,
    bytes "abc1" = x ++ p /\ bytes "abX" = x ++ q /\
    forallb is_text x = true /\
    strcmp_cb_goes_on p q = false /\
    strcmp_cb (bytes "abc1") (bytes "abX") =
      mk_result
        (if isdigit (deref p) || isdigit (deref q) then 0
         else int_of (Z.compare (deref p) (deref q)))
        (Some p) (Some q).
Proof. exact (strcmp_cb_contract (bytes "abc1") (bytes "abX")). Defined.

Lemma cursor_view_of (p : cursor) : cstring p -> cursor_view p.
Proof.
  destruct p as [|c p']; [now constructor 1|]. intros H.
  apply cstring_cons in H. destruct H as [Hc _].
  pose proof (is_byte_nonzero _ Hc) as N.
  destruct (isdigit c) eqn:D.
  - now apply (at_digit _ c p').
  - apply (at_text _ c p'); try easy.
    unfold is_byte in Hc. apply andb_prop in Hc. lia.
Qed.

Lemma drop_while_all {A : Type} (p : A -> bool) (x : list A) :
  forallb p x = true -> drop_while p x = [].
Proof.
  induction x as [|c x IH]; simpl; [reflexivity|]. intros H.
  apply andb_prop in H. destruct H as [Hc Hx]. now rewrite Hc, IH.
Qed.

Lemma text_run_app (x p : list uchar) :
  forallb is_text x = true ->
  text_run (x ++ p) = x ++ text_run p /\ text_rest (x ++ p) = text_rest p.
Proof.
  intros H. unfold text_run, text_rest.
  rewrite take_while_append, drop_while_append.
  now rewrite (drop_while_all _ _ H).
Qed.

Lemma text_run_cons (c : uchar) (p : list uchar) :
  isdigit c = false -> nonzero c = true ->
  text_run (c :: p) = c :: text_run p /\ text_rest (c :: p) = text_rest p.
Proof.
  intros D N. unfold text_run, text_rest, is_text. simpl.
  now rewrite D, N.
Qed.

Lemma list_cmp_app_same {A : Type} (cmp : A -> A -> comparison)
    (x u v : list A) :
  preorder_cmp cmp -> list_cmp cmp (x ++ u) (x ++ v) = list_cmp cmp u v.
Proof.
  intros L. induction x as [|a x IH]; simpl; [reflexivity|].
  now rewrite (cmp_refl _ L).
Qed.

Lemma natural_order_cs_text (a b x p q : list uchar) :
  cstring a -> cstring b ->
  is_text (deref a) = true -> is_text (deref b) = true ->
  a = x ++ p -> b = x ++ q -> forallb is_text x = true ->
  natural_order_cs a b =
  lex (text_order_cs (text_run p) (text_run q))
      (natural_order_cs (text_rest p) (text_rest q)).
Proof.
  intros Ca Cb Ta Tb Ea Eb Hx.
  destruct (tokens_text_run a Ca Ta) as [Ha _].
  destruct (tokens_text_run b Cb Tb) as [Hb _].
  unfold natural_order_cs. rewrite Ha, Hb. cbn [list_cmp].
  unfold token_order_cs at 1. cbn [fst snd].
  rewrite Ea, Eb.
  destruct (text_run_app x p Hx) as [-> ->].
  destruct (text_run_app x q Hx) as [-> ->].
  unfold text_order_cs. now rewrite (list_cmp_app_same _ _ _ _ Z_compare_laws).
Qed.

Lemma natural_order_cs_nil_l (q : list uchar) :
  q <> [] -> natural_order_cs [] q = Lt.
Proof.
  destruct q as [|d q]; [congruence|]. intros _. unfold natural_order_cs.
  destruct (tokens_head d q) as [r [ts E]]. now rewrite E.
Qed.

Lemma natural_order_cs_nil_r (p : list uchar) :
  p <> [] -> natural_order_cs p [] = Gt.
Proof.
  destruct p as [|c p]; [congruence|]. intros _. unfold natural_order_cs.
  destruct (tokens_head c p) as [r [ts E]]. now rewrite E.
Qed.

Section LoopOrderCs.
Variable fuel : nat.
Hypothesis IH : forall a b,
  cstring a -> cstring b -> (length a + length b <= fuel)%nat ->
  natcmp_loop fuel strcmp_cb a b = Ret (int_of (natural_order_cs a b)).

Lemma number_step_order_cs (a b : cursor) :
  cstring a -> cstring b ->
  isdigit (deref a) = true -> isdigit (deref b) = true ->
  (length a + length b <= S fuel)%nat ->
  match natcmp_number a b with
  | Return r => Ret r
  | Break a' b' => Ret (natcmp_tail a' b')
  | Continue a' b' => natcmp_loop fuel strcmp_cb a' b'
  | Fault => Undefined
  end = Ret (int_of (natural_order_cs a b)).
Proof.
  intros Ha Hb Da Db Hl.
  destruct (tokens_digit_run a Da) as [Ta La].
  destruct (tokens_digit_run b Db) as [Tb Lb].
  rewrite natcmp_number_spec, number_cmp_order.
  unfold natural_order_cs. rewrite Ta, Tb. cbn [list_cmp].
  unfold token_order_cs at 1. cbn [fst snd].
  destruct (digit_order (digit_run a) (digit_run b)); cbn [lex];
    try reflexivity.
  apply IH; [now apply cstring_digit_rest..|lia].
Qed.

Lemma text_step_order_cs (a b : cursor) :
  cstring a -> cstring b ->
  is_text (deref a) = true -> is_text (deref b) = true ->
  (length a + length b <= S fuel)%nat ->
  match natcmp_body strcmp_cb a b with
  | Return r => Ret r
  | Break a' b' => Ret (natcmp_tail a' b')
  | Continue a' b' => natcmp_loop fuel strcmp_cb a' b'
  | Fault => Undefined
  end = Ret (int_of (natural_order_cs a b)).
Proof.
  intros Ca Cb Ta Tb Hl.
  destruct (strcmp_cb_scan_spec a b) as [x [Ea [Eb [Hx Hs]]]].
  unfold natcmp_body, strcmp_cb.
  rewrite (is_text_nondigit _ Ta), (is_text_nondigit _ Tb).
  destruct (strcmp_cb_scan a b) as [p q]. cbn [fst snd] in Ea, Eb, Hs.
  cbn [negb andb res end_a end_b].
  rewrite (natural_order_cs_text a b x p q Ca Cb Ta Tb Ea Eb Hx).
  assert (Cp : cstring p) by (rewrite Ea in Ca; apply cstring_app in Ca; tauto).
  assert (Cq : cstring q) by (rewrite Eb in Cb; apply cstring_app in Cb; tauto).
  assert (Lp : (length p <= length a)%nat)
    by (rewrite Ea, length_app; lia).
  assert (Lq : (length q <= length b)%nat)
    by (rewrite Eb, length_app; lia).
  unfold strcmp_cb_goes_on in Hs.
  destruct (cursor_view_of p Cp) as [Ep|c p' Ep Dc Nc|c p' Ep Dc Nc Pc];
    destruct (cursor_view_of q Cq) as [Eq|d q' Eq Dd Nd|d q' Eq Dd Nd Pd];
    subst p q; cbn [deref] in *.
  - (* both strings end *)
    reflexivity.
  - (* a ends, b goes on with a digit *)
    assert (Xd : is_text d = false)
      by (unfold is_text; now rewrite Dd, andb_false_r).
    rewrite Dd. simpl. rewrite Xd. unfold natcmp_tail. simpl.
    rewrite Nd. now rewrite natural_order_cs_nil_l.
  - (* a ends, b goes on with text *)
    assert (Xd : is_text d = true) by (unfold is_text; now rewrite Dd, Nd).
    assert (E1 : (0 =? d) = false) by (apply Z.eqb_neq; lia).
    assert (E2 : (0 <? d) = true) by (apply Z.ltb_lt; lia).
    rewrite Dd, E1, E2. simpl. now rewrite Xd.
  - (* a goes on with a digit, b ends *)
    assert (Xc : is_text c = false)
      by (unfold is_text; now rewrite Dc, andb_false_r).
    rewrite Dc. simpl. rewrite Nc, Xc. unfold natcmp_tail. simpl.
    rewrite Nc. now rewrite natural_order_cs_nil_r.
  - (* both go on with a digit *)
    assert (Xc : is_text c = false)
      by (unfold is_text; now rewrite Dc, andb_false_r).
    assert (Xd : is_text d = false)
      by (unfold is_text; now rewrite Dd, andb_false_r).
    rewrite Dc, Dd. simpl. rewrite Nc, Nd, Xc, Xd. simpl.
    unfold natcmp_classify. simpl.
    apply number_step_order_cs; try assumption; lia.
  - (* a digit against text *)
    assert (Xc : is_text c = false)
      by (unfold is_text; now rewrite Dc, andb_false_r).
    assert (Xd : is_text d = true) by (unfold is_text; now rewrite Dd, Nd).
    rewrite Dc, Dd. simpl. now rewrite Nc, Nd, Xc, Xd.
  - (* a goes on with text, b ends *)
    assert (Xc : is_text c = true) by (unfold is_text; now rewrite Dc, Nc).
    assert (E1 : (c =? 0) = false) by (apply Z.eqb_neq; lia).
    assert (E2 : (c <? 0) = false) by (apply Z.ltb_ge; lia).
    rewrite Dc, E1, E2. simpl. now rewrite Xc.
  - (* text against a digit *)
    assert (Xc : is_text c = true) by (unfold is_text; now rewrite Dc, Nc).
    assert (Xd : is_text d = false)
      by (unfold is_text; now rewrite Dd, andb_false_r).
    rewrite Dc, Dd. simpl. now rewrite Nc, Nd, Xc, Xd.
  - (* two different text bytes *)
    assert (Xc : is_text c = true) by (unfold is_text; now rewrite Dc, Nc).
    assert (Xd : is_text d = true) by (unfold is_text; now rewrite Dd, Nd).
    rewrite Dc, Dd, Nc, Nd in Hs. simpl in Hs.
    rewrite Dc, Dd, Hs. simpl. rewrite Xc, Xd. simpl.
    apply Z.eqb_neq in Hs. unfold text_order_cs. cbn [list_cmp].
    destruct (Z.compare_spec c d) as [E|E|E]; [contradiction| |].
    + apply Z.ltb_lt in E. now rewrite E.
    + assert (E' : (c <? d) = false) by (apply Z.ltb_ge; lia).
      now rewrite E'.
Qed.
End LoopOrderCs.

Lemma natcmp_tail_order_cs (a b : cursor) :
  cstring a -> cstring b ->
  nonzero (deref a) && nonzero (deref b) = false ->
  natcmp_tail a b = int_of (natural_order_cs a b).
Proof.
  intros Ca Cb N. unfold natcmp_tail.
  destruct (cursor_view_of a Ca) as [Ea|c a' Ea Dc Nc|c a' Ea Dc Nc Pc];
    destruct (cursor_view_of b Cb) as [Eb|d b' Eb Dd Nd|d b' Eb Dd Nd Pd];
    subst a b; cbn [deref] in *;
    rewrite ?Nc, ?Nd in *; try discriminate; simpl;
    rewrite ?natural_order_cs_nil_l, ?natural_order_cs_nil_r
      by discriminate;
    reflexivity.
Qed.

Lemma natcmp_loop_order_cs (fuel : nat) (a b : cursor) :
  cstring a -> cstring b -> (length a + length b <= fuel)%nat ->
  natcmp_loop fuel strcmp_cb a b = Ret (int_of (natural_order_cs a b)).
Proof.
  revert a b. induction fuel as [|fuel IH]; intros a b Ha Hb Hl.
  - destruct a; [|simpl in Hl; lia]. destruct b; [|simpl in Hl; lia].
    reflexivity.
  - destruct (nonzero (deref a) && nonzero (deref b)) eqn:N.
    + rewrite natcmp_loop_step by exact N.
      apply andb_prop in N. destruct N as [Na Nb].
      destruct (isdigit (deref a)) eqn:Da, (isdigit (deref b)) eqn:Db.
      * rewrite natcmp_body_digits by assumption.
        now apply number_step_order_cs.
      * rewrite natcmp_body_mixed by congruence. rewrite Da.
        destruct (tokens_digit_run a Da) as [Ta _].
        destruct (nonzero_deref b Nb) as [d [b' [-> _]]].
        destruct (tokens_head d b') as [r [ts E]]. simpl in Db.
        unfold natural_order_cs. rewrite Ta, E, Db. reflexivity.
      * rewrite natcmp_body_mixed by congruence. rewrite Da.
        destruct (tokens_digit_run b Db) as [Tb _].
        destruct (nonzero_deref a Na) as [c [a' [-> _]]].
        destruct (tokens_head c a') as [r [ts E]]. simpl in Da.
        unfold natural_order_cs. rewrite Tb, E, Da. reflexivity.
      * apply text_step_order_cs; try assumption;
          unfold is_text; [now rewrite Na, Da | now rewrite Nb, Db].
    + rewrite natcmp_loop_end by exact N. f_equal.
      now apply natcmp_tail_order_cs.
Qed.

Lemma token_order_cs_laws : preorder_cmp token_order_cs.
Proof.
  pose proof digit_order_laws as D.
  pose proof (list_cmp_laws _ Z_compare_laws) as T.
  split.
  - intros [[|] r1] [[|] r2]; unfold token_order_cs; simpl; try reflexivity.
    + apply (cmp_opp _ D).
    + apply (cmp_opp _ T).
  - intros [[|] r1] [[|] r2] [[|] r3]; unfold token_order_cs; simpl;
      try discriminate; try reflexivity.
    + apply (cmp_eq_l _ D).
    + apply (cmp_eq_l _ T).
  - intros [[|] r1] [[|] r2] [[|] r3]; unfold token_order_cs; simpl;
      try discriminate; try reflexivity.
    + apply (cmp_lt_trans _ D).
    + apply (cmp_lt_trans _ T).
Qed.

Lemma natural_order_cs_laws : preorder_cmp natural_order_cs.
Proof.
  apply (on_laws (list_cmp token_order_cs)
           (list_cmp_laws _ token_order_cs_laws) tokens).
Qed.

Lemma token_order_cs_eq (t1 t2 : token) :
  token_order_cs t1 t2 = Eq -> t1 = t2.
Proof.
  destruct t1 as [[|] r1], t2 as [[|] r2]; unfold token_order_cs; simpl;
    try discriminate.
  - intros H. apply digit_order_eq in H. now subst.
  - intros H. apply list_cmp_Z_eq in H. now subst.
Qed.

Lemma natural_order_cs_eq (a b : list uchar) :
  natural_order_cs a b = Eq <-> a = b.
Proof.
  split.
  - unfold natural_order_cs. intros H.
    assert (E : tokens a = tokens b).
    { revert H. generalize (tokens a) (tokens b).
      induction l as [|t1 l IH]; intros [|t2 l2]; simpl;
        try discriminate; [reflexivity|].
      destruct (token_order_cs t1 t2) eqn:E; simpl; try discriminate.
      intros H. apply token_order_cs_eq in E. subst. f_equal. now apply IH. }
    now rewrite <- (tokens_concat a), <- (tokens_concat b), E.
  - intros ->. apply (cmp_refl _ natural_order_cs_laws).
Qed.

(** X13. With the case-sensitive strategy [strcmp_cb] of the test suite,
    [natcmp] returns for all strings and decides the same kind of order
    as with the default strategy, text runs being compared byte by byte:
    swapping the strings negates the result, and the order is
    transitive. *)
Theorem natcmp_strcmp_cb_order (fuel : nat) (x y z : cursor) :
  cstring x -> cstring y -> cstring z ->
  (length x + length y + length z <= fuel)%nat ->
  exists rxy ryx ryz rxz,
    natcmp fuel x y (Some strcmp_cb) = Ret rxy /\
    natcmp fuel y x (Some strcmp_cb) = Ret ryx /\
    natcmp fuel y z (Some strcmp_cb) = Ret ryz /\
    natcmp fuel x z (Some strcmp_cb) = Ret rxz /\
    rxy = int_of (natural_order_cs x y) /\
    rxy = - ryx /\
    (rxy <= 0 -> ryz <= 0 -> rxz <= 0).
Proof.
  intros Hx Hy Hz Hl.
  exists (int_of (natural_order_cs x y)), (int_of (natural_order_cs y x)),
         (int_of (natural_order_cs y z)), (int_of (natural_order_cs x z)).
  unfold natcmp. simpl.
  repeat split; try (apply natcmp_loop_order_cs; try assumption; lia).
  - rewrite (cmp_opp _ natural_order_cs_laws y x).
    now destruct (natural_order_cs y x).
  - rewrite !int_of_le. apply (cmp_le_trans _ natural_order_cs_laws).
Qed.

Lemma natcmp_strcmp_cb_order_witness :
  exists rxy ryx ryz rxz,
    natcmp 9 (bytes "B2") (bytes "a10") (Some strcmp_cb) = Ret rxy /\
    natcmp 9 (bytes "a10") (bytes "B2") (Some strcmp_cb) = Ret ryx /\
    natcmp 9 (bytes "a10") (bytes "a010") (Some strcmp_cb) = Ret ryz /\
    natcmp 9 (bytes "B2") (bytes "a010") (Some strcmp_cb) = Ret rxz /\
    rxy = int_of (natural_order_cs (bytes "B2") (bytes "a10")) /\
    rxy = - ryx /\
    (rxy <= 0 -> ryz <= 0 -> rxz <= 0).
Proof.
  apply (natcmp_strcmp_cb_order 9 (bytes "B2") (bytes "a10") (bytes "a010"));
    [reflexivity | reflexivity | reflexivity | vm_compute; lia].
Defined.

(** X14. With [strcmp_cb], [natcmp] returns 0 for identical strings
    only. *)
Theorem natcmp_strcmp_cb_zero_iff (fuel : nat) (a b : cursor) :
  cstring a -> cstring b -> (length a + length b <= fuel)%nat ->
  natcmp fuel a b (Some strcmp_cb) = Ret 0 <-> a = b.
Proof.
  intros Ha Hb Hl. unfold natcmp. simpl.
  rewrite (natcmp_loop_order_cs fuel a b Ha Hb Hl).
  rewrite <- natural_order_cs_eq, <- int_of_zero.
  split; [intros H; now injection H | intros ->; reflexivity].
Qed.

Lemma natcmp_strcmp_cb_zero_iff_witness :
  natcmp 6 (bytes "a01") (bytes "a01") (Some strcmp_cb) = Ret 0.
Proof.
  apply (natcmp_strcmp_cb_zero_iff 6 (bytes "a01") (bytes "a01"));
    [reflexivity | reflexivity | vm_compute; lia | reflexivity].
Defined.

Lemma map_tolower_no_upper (r : list uchar) :
  no_upper r = true -> map tolower r = r.
Proof.
  unfold no_upper. induction r as [|c r IH]; simpl; [reflexivity|].
  intros H. apply andb_prop in H. destruct H as [Hc Hr].
  rewrite (IH Hr). f_equal. unfold tolower, is_upper in *.
  now destruct ((65 <=? c) && (c <=? 90)).
Qed.

Lemma no_upper_tokens (ts : list token) :
  no_upper (concat (map snd ts)) = true ->
  forallb (fun t => no_upper (snd t)) ts = true.
Proof.
  unfold no_upper. induction ts as [|t ts IH]; simpl; [reflexivity|].
  rewrite forallb_app. intros H. apply andb_prop in H.
  destruct H as [H1 H2]. now rewrite H1, IH.
Qed.

Lemma list_cmp_token_no_upper (ts1 ts2 : list token) :
  forallb (fun t => no_upper (snd t)) ts1 = true ->
  forallb (fun t => no_upper (snd t)) ts2 = true ->
  list_cmp token_order ts1 ts2 = list_cmp token_order_cs ts1 ts2.
Proof.
  revert ts2. induction ts1 as [|t1 ts1 IH]; intros [|t2 ts2]; simpl;
    try reflexivity.
  intros H1 H2. apply andb_prop in H1. apply andb_prop in H2.
  destruct H1 as [U1 H1], H2 as [U2 H2]. rewrite (IH ts2 H1 H2).
  f_equal. unfold token_order, token_order_cs, text_order, text_order_cs.
  now rewrite (map_tolower_no_upper _ U1), (map_tolower_no_upper _ U2).
Qed.

(** X15. On strings without upper-case ASCII letters the case-sensitive
    strategy [strcmp_cb] and the default strategy give the same
    result. *)
Theorem natcmp_strategies_agree (fuel : nat) (a b : cursor) :
  cstring a -> cstring b -> no_upper a = true -> no_upper b = true ->
  (length a + length b <= fuel)%nat ->
  natcmp fuel a b (Some strcmp_cb) = natcmp fuel a b None.
Proof.
  intros Ha Hb Ua Ub Hl.
  rewrite (natcmp_default_order fuel a b Ha Hb Hl).
  unfold natcmp. simpl.
  rewrite (natcmp_loop_order_cs fuel a b Ha Hb Hl).
  unfold natural_order, natural_order_cs.
  rewrite list_cmp_token_no_upper; [reflexivity| |];
    apply no_upper_tokens; now rewrite tokens_concat.
Qed.

Lemma natcmp_strategies_agree_witness :
  natcmp 24 (bytes "file[2].txt") (bytes "file10.txt") (Some strcmp_cb) =
  natcmp 24 (bytes "file[2].txt") (bytes "file10.txt") None.
Proof.
  apply (natcmp_strategies_agree 24 (bytes "file[2].txt")
           (bytes "file10.txt"));
    [reflexivity | reflexivity | reflexivity | reflexivity
    | vm_compute; lia].
Defined.
